(** * Video download backend: format normalisation and quality resolution

    A shallow embedding of [utils/video_processor.py] (class
    [VideoProcessor]) and of the preview endpoint of [app.py], together
    with the properties of the format list, the quality labels, the
    format-selection expression and the preview response.

    Python values are restricted to the three shapes the code branches on:
    [None], integers and strings (no floats, no booleans).  A Python [str]
    is represented by its UTF-8 encoding, one [ascii] per byte, so that
    equality, emptiness, concatenation and substring search are those of
    the byte strings, while slicing counts characters (code points).
    Dictionaries are finite maps from string keys to such values; an absent
    key is an absent binding.  A raised exception is the [Raise] case of
    [result]. *)

From Stdlib Require Import ZArith Lia Ascii String.
From stdpp Require Import base option strings list gmap sorting pretty.

Local Open Scope string_scope.
Local Open Scope list_scope.
Local Open Scope Z_scope.

(** ** Python values, exceptions, dictionaries *)

Inductive PyVal : Type :=
  | PNone
  | PInt (n : Z)
  | PStr (s : string).

#[global] Instance PyVal_eq_dec : EqDecision PyVal.
Proof. solve_decision. Defined.

Inductive exn : Type :=
  | TypeError (msg : string)
  | Exception (msg : string).

(** [str(e)] *)
Definition str_exn (e : exn) : string :=
  match e with
  | TypeError msg => msg
  | Exception msg => msg
  end.

Inductive result (A : Type) : Type :=
  | Ok (a : A)
  | Raise (e : exn).
Arguments Ok {A} a.
Arguments Raise {A} e.

#[global] Instance result_ret : MRet result := fun A a => Ok a.
#[global] Instance result_bind : MBind result := fun A B f m =>
  match m with
  | Ok a => f a
  | Raise e => Raise e
  end.

Abbreviation Dict := (gmap string PyVal).

(** [d.get(k)] and [d.get(k, dflt)]: the default is used only when the key
    is absent; a key bound to [None] yields [None]. *)
Definition get (d : Dict) (k : string) : PyVal := default PNone (d !! k).
Definition get_or (d : Dict) (k : string) (dflt : PyVal) : PyVal :=
  default dflt (d !! k).

(** Truth value of a Python object. *)
Definition truthy (v : PyVal) : bool :=
  match v with
  | PNone => false
  | PInt n => negb (n =? 0)
  | PStr s => negb (String.eqb s "")
  end.

(** [a == b] on [None], integers and strings. *)
Definition py_eq (a b : PyVal) : bool := bool_decide (a = b).

Definition type_name (v : PyVal) : string :=
  match v with
  | PNone => "NoneType"
  | PInt _ => "int"
  | PStr _ => "str"
  end.

(** [v >= n] for an integer literal [n]. *)
Definition py_ge_int (v : PyVal) (n : Z) : result bool :=
  match v with
  | PInt h => Ok (n <=? h)
  | _ => Raise (TypeError ("'>=' not supported between instances of '"
                           +:+ type_name v +:+ "' and 'int'"))
  end.

(** [v // n] for a positive integer literal [n] (Python floors). *)
Definition py_floordiv_int (v : PyVal) (n : Z) : result PyVal :=
  match v with
  | PInt h => Ok (PInt (h / n))
  | _ => Raise (TypeError ("unsupported operand type(s) for //: '"
                           +:+ type_name v +:+ "' and 'int'"))
  end.

(** [f"{v}"] *)
Definition py_str (v : PyVal) : string :=
  match v with
  | PNone => "None"
  | PInt n => pretty n
  | PStr s => s
  end.

(** ** [VideoProcessor._create_quality_label] *)

Definition _create_quality_label (height width fps : PyVal) : result string :=
  b ← py_ge_int height 4320;
  if b : bool then q ← py_floordiv_int height 1000; Ok (py_str q +:+ "K") else
  b ← py_ge_int height 2160; if b : bool then Ok "4K" else
  b ← py_ge_int height 1440; if b : bool then Ok "2K" else
  b ← py_ge_int height 1080; if b : bool then Ok "1080p" else
  b ← py_ge_int height 720; if b : bool then Ok "720p" else
  b ← py_ge_int height 480; if b : bool then Ok "480p" else
  b ← py_ge_int height 360; if b : bool then Ok "360p" else
  b ← py_ge_int height 240; if b : bool then Ok "240p" else
  b ← py_ge_int height 144; if b : bool then Ok "144p" else
  Ok (py_str height +:+ "p").

(** ** [VideoProcessor._format_filesize]

    The loop divides by [1024.0], so from the second unit on the size is a
    float.  Division by a power of two is exact on doubles, hence for
    [|bytes_size| < 2^53] the value at step [k] is the rational
    [bytes_size / 1024^k], kept here as numerator and denominator;
    [{:.1f}] rounds it to one decimal, ties to even.  From [2^53] up the
    code first rounds the integer to a double, and beyond the range of
    doubles it raises [OverflowError]; neither is modelled, and the
    properties below that depend on the rendering of a size are stated for
    sizes below [2^53]. *)

Definition round_half_even (num den : Z) : Z :=
  let q := num / den in
  let r := num `mod` den in
  if 2 * r <? den then q
  else if den <? 2 * r then q + 1
  else if Z.even q then q else q + 1.

(** [f"{num/den:.1f}"] for [den > 0]. *)
Definition format_1f (num den : Z) : string :=
  let t := round_half_even (10 * Z.abs num) den in
  (if num <? 0 then "-" else "") +:+ pretty (t / 10) +:+ "." +:+ pretty (t `mod` 10).

Fixpoint filesize_units (num den : Z) (units : list string) : string :=
  match units with
  | [] => format_1f num den +:+ " TB"
  | unit :: units' =>
      if num <? 1024 * den then format_1f num den +:+ " " +:+ unit
      else filesize_units num (1024 * den) units'
  end.

Definition _format_filesize (bytes_size : PyVal) : result string :=
  if negb (truthy bytes_size) then Ok "Unknown"
  else match bytes_size with
       | PInt n => Ok (filesize_units n 1 ["B"; "KB"; "MB"; "GB"])
       | _ => Raise (TypeError ("'<' not supported between instances of '"
                                +:+ type_name bytes_size +:+ "' and 'float'"))
       end.

(** ** [VideoProcessor._process_formats] *)

(** The [for fmt in formats] loop; [continue] is the recursive call with
    the accumulators unchanged. *)
Fixpoint process_loop (formats : list Dict) (processed_formats : list Dict)
    (seen_qualities : gset string) : result (list Dict) :=
  match formats with
  | [] => Ok processed_formats
  | fmt :: rest =>
      if negb (truthy (get fmt "url")) || py_eq (get fmt "filesize") (PInt 0)
      then process_loop rest processed_formats seen_qualities
      else
        let height := get_or fmt "height" (PInt 0) in
        let width := get_or fmt "width" (PInt 0) in
        let fps := get_or fmt "fps" (PInt 0) in
        let vcodec := get_or fmt "vcodec" (PStr "none") in
        let acodec := get_or fmt "acodec" (PStr "none") in
        if py_eq vcodec (PStr "none")
        then process_loop rest processed_formats seen_qualities
        else
          quality_label ← _create_quality_label height width fps;
          if bool_decide (quality_label ∈ seen_qualities)
          then process_loop rest processed_formats seen_qualities
          else
            let seen_qualities := {[quality_label]} ∪ seen_qualities in
            let filesize := get_or fmt "filesize" (PInt 0) in
            let filesize :=
              if negb (truthy filesize)
              then get_or fmt "filesize_approx" (PInt 0) else filesize in
            filesize_formatted ← _format_filesize filesize;
            process_loop rest
              (processed_formats ++
                 [ <["format_id" := get_or fmt "format_id" (PStr "")]>
                   (<["quality" := PStr quality_label]>
                   (<["height" := height]>
                   (<["width" := width]>
                   (<["fps" := fps]>
                   (<["filesize" := filesize]>
                   (<["filesize_formatted" := PStr filesize_formatted]>
                   (<["vcodec" := vcodec]>
                   (<["acodec" := acodec]>
                   (<["url" := get_or fmt "url" (PStr "")]>
                   (<["ext" := get_or fmt "ext" (PStr "mp4")]> ∅)))))))))) ])
              seen_qualities
  end.

(** Sort key [x['height']].  Every dictionary that reaches the sort has an
    integer height ([builds_height_key] below): a [None] or string height
    raises in [_create_quality_label] before the entry is built. *)
Definition height_key (x : Dict) : Z :=
  match x !! "height" with
  | Some (PInt h) => h
  | _ => 0
  end.

(** [list.sort(key=..., reverse=True)] is a stable sort: elements are put in
    descending key order and elements with equal keys keep their order.
    Modelled by insertion from the right, each element going in front of the
    first element whose key is not larger.  The lists that reach the sort
    have pairwise distinct heights ([kept_heights_distinct] below), so the
    result does not depend on the sorting algorithm. *)
Fixpoint insert_desc (x : Dict) (l : list Dict) : list Dict :=
  match l with
  | [] => [x]
  | y :: l' =>
      if height_key x <? height_key y then y :: insert_desc x l'
      else x :: y :: l'
  end.

Fixpoint sort_desc (l : list Dict) : list Dict :=
  match l with
  | [] => []
  | x :: l' => insert_desc x (sort_desc l')
  end.

(** [highest = processed_formats[0].copy()] with its two overrides. *)
Definition highest_of (first : Dict) : Dict :=
  <["format_id" := PStr "best"]> (<["quality" := PStr "Highest Available"]> first).

(** [if processed_formats: ... processed_formats.insert(0, highest)] *)
Definition add_highest (processed_formats : list Dict) : list Dict :=
  match processed_formats with
  | [] => []
  | first :: _ => highest_of first :: processed_formats
  end.

Definition _process_formats (formats : list Dict) : result (list Dict) :=
  processed_formats ← process_loop formats [] ∅;
  let processed_formats := sort_desc processed_formats in
  Ok (add_highest processed_formats).

(** ** [VideoProcessor._format_duration] *)

(** [f"{n:02d}"] *)
Definition format_02d (n : Z) : string :=
  if (0 <=? n) && (n <? 10) then "0" +:+ pretty n else pretty n.

Definition _format_duration (seconds : PyVal) : result string :=
  if negb (truthy seconds) then Ok "Unknown"
  else match seconds with
       | PInt s =>
           let hours := s / 3600 in
           let minutes := (s `mod` 3600) / 60 in
           let secs := s `mod` 60 in
           if 0 <? hours
           then Ok (pretty hours +:+ ":" +:+ format_02d minutes
                    +:+ ":" +:+ format_02d secs)
           else Ok (pretty minutes +:+ ":" +:+ format_02d secs)
       | _ => Raise (TypeError ("unsupported operand type(s) for //: '"
                                +:+ type_name seconds +:+ "' and 'int'"))
       end.

(** ** [VideoProcessor.get_video_info] *)

(** The metadata dictionary returned by the extraction engine: its scalar
    entries, and the list under ['formats'] when that key is present. *)
Record Info : Type := {
  info_fields : Dict;
  info_formats : option (list Dict)
}.

(** The dictionary built by [get_video_info]; the same ten fields as the
    [VideoInfo] response model. *)
Record video_info : Type := {
  title : PyVal;
  thumbnail : PyVal;
  duration : PyVal;
  duration_formatted : string;
  formats : list Dict;
  video_id : PyVal;
  uploader : PyVal;
  view_count : PyVal;
  like_count : PyVal;
  description : string
}.

(** A byte [10xxxxxx] continues a character; every other byte starts one. *)
Definition is_continuation (c : ascii) : bool :=
  (128 <=? N_of_ascii c)%N && (N_of_ascii c <? 192)%N.

(** [len(s)]: the number of characters (code points). *)
Fixpoint utf8_length (s : string) : nat :=
  match s with
  | EmptyString => O
  | String c s' =>
      if is_continuation c then utf8_length s' else S (utf8_length s')
  end.

(** [s[:n]]: the first [n] characters, each with all its bytes. *)
Fixpoint utf8_take (n : nat) (s : string) : string :=
  match s with
  | EmptyString => EmptyString
  | String c s' =>
      if is_continuation c then String c (utf8_take n s')
      else match n with
           | O => EmptyString
           | S n' => String c (utf8_take n' s')
           end
  end.

(** [s[:200]] *)
Definition py_slice_200 (v : PyVal) : result string :=
  match v with
  | PStr s => Ok (utf8_take 200 s)
  | _ => Raise (TypeError ("'" +:+ type_name v +:+ "' object is not subscriptable"))
  end.

(** [info.get('description', '')[:200] + '...' if info.get('description', '') else '']:
    the conditional expression binds weaker than [+]. *)
Definition description_of (info : Dict) : result string :=
  if truthy (get_or info "description" (PStr ""))
  then s ← py_slice_200 (get_or info "description" (PStr "")); Ok (s +:+ "...")
  else Ok "".

(** ** [VideoProcessor.download_video]: the [ydl_opts['format']] selection *)

Definition download_video_format (quality : string) (format_id : option string) : string :=
  if String.eqb quality "Highest Available" || bool_decide (format_id = Some "best")
  then "bestvideo[ext=mp4]+bestaudio[ext=m4a]/best[ext=mp4]/best"
  else match format_id with
       | Some fid => if negb (String.eqb fid "") then fid else "best[ext=mp4]/best"
       | None => "best[ext=mp4]/best"
       end.

(** ** The service around the extraction engine *)

(** [needle in s] *)
Definition contains (needle s : string) : bool :=
  bool_decide (is_Some (String.index 0 needle s)).

Inductive response : Type :=
  | Response200 (body : video_info)
  | HTTPException (status_code : Z) (detail : string).

Section Service.
(** [ydl.extract_info(url, download=False)]: metadata, or an error raised
    by the engine. *)
Variable extract_info : string → result Info.
(** Construction of the [VideoInfo] response model, which validates the
    field types. *)
Variable VideoInfo : video_info → result video_info.
(** [str(e)] of the framework's [HTTPException]. *)
Variable str_HTTPException : Z → string → string.

Definition get_video_info_body (url : string) : result video_info :=
  info ← extract_info url;
  formats ← _process_formats (default [] (info_formats info));
  let d := info_fields info in
  duration_formatted ← _format_duration (get_or d "duration" (PInt 0));
  description ← description_of d;
  Ok {| title := get_or d "title" (PStr "Unknown Title");
        thumbnail := get_or d "thumbnail" (PStr "");
        duration := get_or d "duration" (PInt 0);
        duration_formatted := duration_formatted;
        formats := formats;
        video_id := get_or d "id" (PStr "");
        uploader := get_or d "uploader" (PStr "Unknown");
        view_count := get_or d "view_count" (PInt 0);
        like_count := get_or d "like_count" (PInt 0);
        description := description |}.

(** [try: ... except Exception as e: raise Exception(f"Error extracting video info: {str(e)}")] *)
Definition get_video_info (url : string) : result video_info :=
  match get_video_info_body url with
  | Ok v => Ok v
  | Raise e => Raise (Exception ("Error extracting video info: " +:+ str_exn e))
  end.

(** [app.get_video_preview]: every exception raised inside the [try],
    the handler's own [HTTPException] included, is turned into a 400. *)
Definition get_video_preview (url : string) : response :=
  if String.eqb url ""
     || (negb (contains "youtube.com" url) && negb (contains "youtu.be" url))
  then HTTPException 400 (str_HTTPException 400 "Invalid YouTube URL")
  else match get_video_info url with
       | Raise e => HTTPException 400 (str_exn e)
       | Ok video_info =>
           match VideoInfo video_info with
           | Ok body => Response200 body
           | Raise e => HTTPException 400 (str_exn e)
           end
       end.
End Service.

(** ** [VideoProcessor.download_video] and the download endpoint *)

(** [p.rfind('/')]: the index of the last slash, [-1] when there is none. *)
Fixpoint rfind_slash (p : string) : Z :=
  match p with
  | EmptyString => -1
  | String c p' =>
      let r := rfind_slash p' in
      if 0 <=? r then r + 1
      else if Ascii.eqb c "/" then 0 else -1
  end.

(** [p[i:]] for [i >= 0]. *)
Fixpoint string_drop (i : nat) (p : string) : string :=
  match i, p with
  | O, _ => p
  | S i', EmptyString => EmptyString
  | S i', String _ p' => string_drop i' p'
  end.

(** [os.path.basename(p)], that is [p[p.rfind('/') + 1:]]. *)
Definition basename (p : string) : string :=
  string_drop (Z.to_nat (rfind_slash p + 1)) p.

Definition starts_with_slash (p : string) : bool :=
  match p with
  | String c _ => Ascii.eqb c "/"
  | EmptyString => false
  end.

Fixpoint ends_with_slash (p : string) : bool :=
  match p with
  | EmptyString => false
  | String c EmptyString => Ascii.eqb c "/"
  | String _ p' => ends_with_slash p'
  end.

(** [os.path.join(a, b)] *)
Definition path_join (a b : string) : string :=
  if starts_with_slash b then b
  else if String.eqb a "" || ends_with_slash a then a +:+ b
  else a +:+ "/" +:+ b.

(** [self.download_dir], as a string. *)
Definition download_dir : string := "downloads".

(** The body of the [DownloadResponse] model. *)
Record DownloadResponse : Type := {
  success : bool;
  message : string;
  download_url : option string;
  filename : option string
}.

Inductive download_response : Type :=
  | DownloadResponse200 (body : DownloadResponse)
  | DownloadHTTPException (status_code : Z) (detail : string).

Section Download.
(** [tempfile.TemporaryDirectory()]: the name of the scratch directory, or
    the error raised on creating it.  Its removal when the [with] block is
    left is taken to succeed. *)
Variable TemporaryDirectory : result string.
(** [YoutubeDL(ydl_opts)] with the given [outtmpl] and [format], then
    [extract_info(url, download=True)] and [prepare_filename(info)]: the
    name of the downloaded file, or the error raised by the engine. *)
Variable ydl_download : string → string → string → result string.
(** [os.path.exists] *)
Variable path_exists : string → bool.
(** [os.rename] *)
Variable os_rename : string → string → result unit.
(** [str(e)] of the framework's [HTTPException]. *)
Variable str_HTTPException : Z → string → string.

Definition download_video_body (url quality : string) (format_id : option string)
    : result (string * string) :=
  temp_dir ← TemporaryDirectory;
  let outtmpl := path_join temp_dir "%(title)s.%(ext)s" in
  let format := download_video_format quality format_id in
  filename ← ydl_download outtmpl format url;
  if path_exists filename
  then
    let final_path := path_join download_dir (basename filename) in
    _ ← os_rename filename final_path;
    Ok (final_path, basename filename)
  else Raise (Exception "Download failed - file not found").

(** [try: ... except Exception as e: raise Exception(f"Error downloading video: {str(e)}")] *)
Definition download_video (url quality : string) (format_id : option string)
    : result (string * string) :=
  match download_video_body url quality format_id with
  | Ok r => Ok r
  | Raise e => Raise (Exception ("Error downloading video: " +:+ str_exn e))
  end.

(** [app.download_video] *)
Definition app_download_video (url quality : string) (format_id : option string)
    : download_response :=
  if String.eqb url ""
     || (negb (contains "youtube.com" url) && negb (contains "youtu.be" url))
  then DownloadHTTPException 400 (str_HTTPException 400 "Invalid YouTube URL")
  else if String.eqb quality ""
  then DownloadHTTPException 400 (str_HTTPException 400 "Quality selection required")
  else match download_video url quality format_id with
       | Raise e => DownloadHTTPException 400 (str_exn e)
       | Ok (file_path, name) =>
           DownloadResponse200
             {| success := true;
                message := "Video downloaded successfully";
                download_url := Some ("/downloads/" +:+ name);
                filename := Some name |}
       end.
End Download.

(** ** Vocabulary of the properties *)

#[global] Instance exn_eq_dec : EqDecision exn.
Proof. solve_decision. Defined.
#[global] Instance result_eq_dec {A} `{EqDecision A} : EqDecision (result A).
Proof. solve_decision. Defined.

(** A raw format passes the two [continue] guards at the head of the loop:
    it has a truthy [url], its [filesize] is not equal to [0], and its
    [vcodec] (['none'] when absent) is not ['none']. *)
Definition usable (fmt : Dict) : bool :=
  truthy (get fmt "url")
  && negb (py_eq (get fmt "filesize") (PInt 0))
  && negb (py_eq (get_or fmt "vcodec" (PStr "none")) (PStr "none")).

(** The label the loop computes for [fmt]. *)
Definition label_of (fmt : Dict) : result string :=
  _create_quality_label (get_or fmt "height" (PInt 0))
    (get_or fmt "width" (PInt 0)) (get_or fmt "fps" (PInt 0)).

(** The [filesize] the loop stores for [fmt]. *)
Definition size_of (fmt : Dict) : PyVal :=
  if negb (truthy (get_or fmt "filesize" (PInt 0)))
  then get_or fmt "filesize_approx" (PInt 0)
  else get_or fmt "filesize" (PInt 0).

(** The dictionary appended for [fmt]. *)
Definition entry_of (fmt : Dict) (quality_label filesize_formatted : string) : Dict :=
  <["format_id" := get_or fmt "format_id" (PStr "")]>
  (<["quality" := PStr quality_label]>
  (<["height" := get_or fmt "height" (PInt 0)]>
  (<["width" := get_or fmt "width" (PInt 0)]>
  (<["fps" := get_or fmt "fps" (PInt 0)]>
  (<["filesize" := size_of fmt]>
  (<["filesize_formatted" := PStr filesize_formatted]>
  (<["vcodec" := get_or fmt "vcodec" (PStr "none")]>
  (<["acodec" := get_or fmt "acodec" (PStr "none")]>
  (<["url" := get_or fmt "url" (PStr "")]>
  (<["ext" := get_or fmt "ext" (PStr "mp4")]> ∅)))))))))).

(** [e] is the entry the loop builds from the raw format [fmt]. *)
Definition builds (fmt e : Dict) : Prop :=
  ∃ lbl s, label_of fmt = Ok lbl
           ∧ _format_filesize (size_of fmt) = Ok s
           ∧ e = entry_of fmt lbl s.

(** First-wins deduplication by label, written without an accumulator:
    the head is kept and every later format with the head's label goes. *)
Fixpoint first_per_label (l : list Dict) : list Dict :=
  match l with
  | [] => []
  | fmt :: rest =>
      fmt :: filter (λ g, label_of g ≠ label_of fmt) (first_per_label rest)
  end.

(** The surviving raw formats: filtered, then deduplicated, in input order. *)
Definition kept_formats (formats : list Dict) : list Dict :=
  first_per_label (filter (λ fmt, usable fmt = true) formats).

(** A format whose label is not yet in [seen_qualities]. *)
Definition unseen (seen : gset string) (fmt : Dict) : Prop :=
  ∀ lbl, label_of fmt = Ok lbl → lbl ∉ seen.

#[global] Instance unseen_dec seen fmt : Decision (unseen seen fmt).
Proof.
  unfold unseen. destruct (label_of fmt) as [lbl|e].
  - destruct (decide (lbl ∈ seen)) as [Hin|Hout].
    + right. intros H. exact (H lbl eq_refl Hin).
    + left. intros l [= <-]. exact Hout.
  - left. intros l [=].
Defined.

Definition quality (e : Dict) : option PyVal := e !! "quality".

(** The entries of an output list other than the synthetic one. *)
Definition non_synthetic (out : list Dict) : list Dict :=
  filter (λ e, quality e ≠ Some (PStr "Highest Available")) out.

Definition desc_height (a b : Dict) : Prop := height_key b ≤ height_key a.

(** The label rule as the specification words it: above the multi-K
    threshold the thousands of the height, truncated; otherwise the label of
    the first breakpoint, scanning from the highest, that the height meets
    or exceeds; below all of them the height itself. *)
Definition breakpoints : list (Z * string) :=
  [(2160, "4K"); (1440, "2K"); (1080, "1080p"); (720, "720p");
   (480, "480p"); (360, "360p"); (240, "240p"); (144, "144p")].

Definition label_by_breakpoints (height : Z) : string :=
  if 4320 <=? height then pretty (height ÷ 1000) +:+ "K"
  else match List.find (λ bp, fst bp <=? height) breakpoints with
       | Some bp => snd bp
       | None => pretty height +:+ "p"
       end.

(** On an integer height the label function never raises and is the plain
    chain of comparisons. *)
Definition label_of_height (h : Z) : string :=
  if 4320 <=? h then pretty (h / 1000) +:+ "K"
  else if 2160 <=? h then "4K"
  else if 1440 <=? h then "2K"
  else if 1080 <=? h then "1080p"
  else if 720 <=? h then "720p"
  else if 480 <=? h then "480p"
  else if 360 <=? h then "360p"
  else if 240 <=? h then "240p"
  else if 144 <=? h then "144p"
  else pretty h +:+ "p".

(** The three format-selection expressions of [download_video]. *)
Definition combined_best : string :=
  "bestvideo[ext=mp4]+bestaudio[ext=m4a]/best[ext=mp4]/best".
Definition plain_best : string := "best[ext=mp4]/best".

(** The resolver as the specification words it: an identifier that is
    supplied is passed through, whatever it is. *)
Definition resolver_by_rules (quality : string) (format_id : option string) : string :=
  if bool_decide (quality = "Highest Available" ∨ format_id = Some "best")
  then combined_best
  else match format_id with
       | Some fid => fid
       | None => plain_best
       end.

(** The description as the specification words it: the original when it
    has at most 200 characters, else its first 200 characters and an
    ellipsis. *)
Definition description_by_rule (original : string) : string :=
  if (utf8_length original <=? 200)%nat then original
  else utf8_take 200 original +:+ "...".

(** The euro sign, a character of three bytes, and [n] copies of a text. *)
Definition euro : string := String "226" (String "130" (String "172" EmptyString)).

Fixpoint string_repeat (n : nat) (s : string) : string :=
  match n with
  | O => EmptyString
  | S n' => s +:+ string_repeat n' s
  end.

(** A URL that passes the check at the head of [get_video_preview]. *)
Definition supported_url (url : string) : Prop :=
  url ≠ "" ∧ (contains "youtube.com" url = true ∨ contains "youtu.be" url = true).

(** A raw format with a video codec and a locator whose height is present
    and null. *)
Definition null_height_format : Dict :=
  <["url" := PStr "https://example.com/v"]>
  (<["vcodec" := PStr "avc1"]>
  (<["height" := PNone]> ∅)).

(** Raw formats on which the loop body cannot raise: the height is an
    integer when present, and the size that gets formatted is not a
    non-empty string. *)
Definition well_typed (fmt : Dict) : Prop :=
  (∃ h, get_or fmt "height" (PInt 0) = PInt h)
  ∧ (∀ s, size_of fmt = PStr s → s = "").

(** The claim that the three guards are the only way out of the output:
    the non-synthetic entries are those of all formats passing the guards. *)
Definition only_guards_exclude (formats out : list Dict) : Prop :=
  ∃ entries, Forall2 builds (filter (λ fmt, usable fmt = true) formats) entries
             ∧ non_synthetic out ≡ₚ entries.

(** Sample raw formats. *)
Definition raw_format (url format_id vcodec : string) (height filesize : Z) : Dict :=
  <["url" := PStr url]>
  (<["format_id" := PStr format_id]>
  (<["vcodec" := PStr vcodec]>
  (<["height" := PInt height]>
  (<["filesize" := PInt filesize]> ∅)))).

Definition two_1080p : list Dict :=
  [raw_format "https://cdn/a" "137" "avc1" 1080 100;
   raw_format "https://cdn/b" "299" "vp9" 1080 500].

Definition sample_formats : list Dict :=
  [raw_format "https://cdn/1" "18" "avc1" 360 40;
   raw_format "https://cdn/2" "140" "none" 0 30;
   raw_format "https://cdn/3" "137" "avc1" 1080 100;
   raw_format "https://cdn/4" "299" "vp9" 1080 500;
   raw_format "https://cdn/5" "22" "avc1" 720 0;
   raw_format "https://cdn/6" "135" "avc1" 480 60;
   raw_format "https://cdn/7" "244" "vp9" 480 70;
   raw_format "https://cdn/8" "401" "av01" 2160 900;
   raw_format "https://cdn/9" "571" "av01" 4320 2000].

Definition output_of (formats : list Dict) : list Dict :=
  match _process_formats formats with
  | Ok out => out
  | Raise _ => []
  end.

Definition two_1080p_out : list Dict := Eval vm_compute in output_of two_1080p.
Definition sample_out : list Dict := Eval vm_compute in output_of sample_formats.

(** The claim that an engine failure reaches the client as it is: the
    detail of the 400 response is the text of the engine's error. *)
Definition raw_text_propagated (extract_info : string → result Info)
    (VideoInfo : video_info → result video_info)
    (str_HTTPException : Z → string → string) (url : string) : Prop :=
  ∀ e, extract_info url = Raise e →
       get_video_preview extract_info VideoInfo str_HTTPException url
       = HTTPException 400 (str_exn e).

(** An engine that fails on every URL. *)
Definition unavailable_engine (url : string) : result Info :=
  Raise (Exception "Video unavailable").

(** An engine that answers every URL with one format, of null height. *)
Definition null_height_engine (url : string) : result Info :=
  Ok {| info_fields := ∅; info_formats := Some [null_height_format] |}.

(** The keys of every entry of the normalised list. *)
Definition entry_keys : gset string :=
  {[ "format_id"; "quality"; "height"; "width"; "fps"; "filesize";
     "filesize_formatted"; "vcodec"; "acodec"; "url"; "ext" ]}.

(** An audio-only raw format as the engine lists them: no video codec and
    a null height. *)
Definition audio_only_format : Dict :=
  <["url" := PStr "https://cdn/audio"]>
  (<["format_id" := PStr "140"]>
  (<["vcodec" := PStr "none"]>
  (<["height" := PNone]> ∅))).

(** A usable raw format whose size is a string. *)
Definition string_size_format : Dict :=
  <["url" := PStr "https://cdn/s"]>
  (<["vcodec" := PStr "vp9"]>
  (<["height" := PInt 1080]>
  (<["filesize" := PStr "12 MB"]> ∅))).

(** Every label is a number followed by one letter. *)
Definition label_num (h : Z) : Z :=
  if 4320 <=? h then h / 1000
  else if 2160 <=? h then 4
  else if 1440 <=? h then 2
  else if 1080 <=? h then 1080
  else if 720 <=? h then 720
  else if 480 <=? h then 480
  else if 360 <=? h then 360
  else if 240 <=? h then 240
  else if 144 <=? h then 144
  else h.

Definition label_suffix (h : Z) : ascii :=
  if 1440 <=? h then "K"%char else "p"%char.

(** A number that grows with the height and tells the labels apart. *)
Definition label_rank (h : Z) : Z :=
  if 1440 <=? h then label_num h + 1079 else label_num h.

Definition entry_rank (e : Dict) : Z := label_rank (height_key e).

Definition sample_rev_out : list Dict :=
  Eval vm_compute in output_of (reverse sample_formats).

(** An engine that answers every URL with the sample formats and a short
    description. *)
Definition sample_engine (url : string) : result Info :=
  Ok {| info_fields :=
          <["title" := PStr "Clip"]>
          (<["duration" := PInt 125]>
          (<["description" := PStr "Hi"]> ∅));
        info_formats := Some sample_formats |}.

(** A download engine that writes one file under the scratch directory. *)
Definition sample_download (outtmpl format url : string) : result string :=
  Ok "/tmp/scratch/Clip.mp4".

(** A string without any slash. *)
Definition no_slash (s : string) : Prop :=
  ∀ i, String.get i s ≠ Some "/"%char.

(** An integer below [2^53] in absolute value. *)
Definition small_int (v : PyVal) : Prop :=
  ∃ n, v = PInt n ∧ - 2 ^ 53 < n < 2 ^ 53.

(** A size whose rendering the model gives exactly: null, the empty
    string, or an integer below [2^53] in absolute value. *)
Definition exact_size (v : PyVal) : Prop :=
  match v with
  | PNone => True
  | PInt n => - 2 ^ 53 < n < 2 ^ 53
  | PStr s => s = ""
  end.

Fixpoint last_char (s : string) : option ascii :=
  match s with
  | EmptyString => None
  | String c EmptyString => Some c
  | String _ s' => last_char s'
  end.

(** ** Quality labels *)

Lemma last_char_app (s : string) (c : ascii) :
  last_char (s +:+ String c EmptyString) = Some c.
Proof.
  induction s as [|a s IH]; [reflexivity|].
  simpl. rewrite IH. destruct s; reflexivity.
Qed.

Lemma create_quality_label_int (h : Z) (width fps : PyVal) :
  _create_quality_label (PInt h) width fps = Ok (label_of_height h).
Proof.
  unfold _create_quality_label, label_of_height; simpl.
  repeat (match goal with
          | |- context [?n <=? h] => destruct (n <=? h); simpl
          end); reflexivity.
Qed.

Lemma create_quality_label_Ok (height width fps : PyVal) (lbl : string) :
  _create_quality_label height width fps = Ok lbl →
  ∃ h, height = PInt h ∧ lbl = label_of_height h.
Proof.
  destruct height as [|h|s]; [discriminate| |discriminate].
  rewrite create_quality_label_int. intros [= <-]. eauto.
Qed.

Lemma label_of_height_not_highest (h : Z) :
  label_of_height h ≠ "Highest Available".
Proof.
  unfold label_of_height.
  repeat (match goal with
          | |- context [?n <=? h] => destruct (n <=? h)
          end); try discriminate.
  - intros H. apply (f_equal last_char) in H.
    rewrite (last_char_app _ "K"%char) in H. discriminate.
  - intros H. apply (f_equal last_char) in H.
    rewrite (last_char_app _ "p"%char) in H. discriminate.
Qed.

(** ** The loop *)

Lemma process_loop_cons (fmt : Dict) (rest processed : list Dict) (seen : gset string) :
  process_loop (fmt :: rest) processed seen =
    if usable fmt
    then lbl ← label_of fmt;
         if bool_decide (lbl ∈ seen) then process_loop rest processed seen
         else s ← _format_filesize (size_of fmt);
              process_loop rest (processed ++ [entry_of fmt lbl s]) ({[lbl]} ∪ seen)
    else process_loop rest processed seen.
Proof.
  unfold usable, label_of, entry_of, size_of; simpl.
  destruct (truthy (get fmt "url")); simpl; [|reflexivity].
  destruct (py_eq (get fmt "filesize") (PInt 0)); simpl; [reflexivity|].
  destruct (py_eq (get_or fmt "vcodec" (PStr "none")) (PStr "none")); reflexivity.
Qed.

Lemma kept_formats_cons (fmt : Dict) (rest : list Dict) :
  kept_formats (fmt :: rest) =
    if usable fmt
    then fmt :: filter (λ g, label_of g ≠ label_of fmt) (kept_formats rest)
    else kept_formats rest.
Proof.
  unfold kept_formats. destruct (usable fmt) eqn:Hu.
  - by rewrite filter_cons_True.
  - rewrite filter_cons_False; [done|]. by rewrite Hu.
Qed.

(** The entries the loop appends are those built, in order, from the kept
    formats whose label was not already seen. *)
Lemma process_loop_spec (formats : list Dict) :
  ∀ (processed : list Dict) (seen : gset string) (out : list Dict),
    process_loop formats processed seen = Ok out →
    ∃ entries, out = processed ++ entries
               ∧ Forall2 builds (filter (unseen seen) (kept_formats formats)) entries.
Proof.
  induction formats as [|fmt rest IH]; intros processed seen out.
  - simpl. intros [= <-]. exists []. rewrite app_nil_r. split; [done|constructor].
  - rewrite process_loop_cons, kept_formats_cons.
    destruct (usable fmt); [|apply IH].
    destruct (label_of fmt) as [lbl|e] eqn:Hlbl; [|discriminate].
    cbn [mbind result_bind]. case_bool_decide as Hseen.
    + intros H. apply IH in H as (entries & -> & HF).
      exists entries. split; [done|].
      rewrite filter_cons_False.
      2:{ intros Hu. exact (Hu lbl Hlbl Hseen). }
      rewrite list_filter_filter_l; [done|].
      intros g Hg Heq. exact (Hg lbl Heq Hseen).
    + destruct (_format_filesize (size_of fmt)) as [s|e] eqn:Hs; [|discriminate].
      cbn [mbind result_bind]. intros H. apply IH in H as (entries & -> & HF).
      exists (entry_of fmt lbl s :: entries). split.
      { by rewrite <- app_assoc. }
      rewrite filter_cons_True.
      2:{ intros l Hl. rewrite Hlbl in Hl. by injection Hl as <-. }
      constructor; [by exists lbl, s|].
      rewrite list_filter_filter.
      erewrite list_filter_iff; [exact HF|].
      intros g. unfold unseen. split.
      * intros [Hg Hne] l Hl. rewrite elem_of_union, elem_of_singleton.
        intros [->|Hin]; [by apply Hne|by apply (Hg l)].
      * intros Hg. split.
        -- intros l Hl Hin. apply (Hg l Hl). set_solver.
        -- intros Heq. apply (Hg lbl Heq). set_solver.
Qed.

Lemma filter_unseen_empty (l : list Dict) : filter (unseen ∅) l = l.
Proof.
  induction l as [|x l IH]; [done|].
  rewrite filter_cons_True; [by rewrite IH|].
  intros lbl _. apply not_elem_of_empty.
Qed.

(** ** The sort *)

Lemma insert_desc_perm (x : Dict) (l : list Dict) : insert_desc x l ≡ₚ x :: l.
Proof.
  induction l as [|y l IH]; [done|]. simpl.
  destruct (height_key x <? height_key y); [|done].
  rewrite IH. apply Permutation_swap.
Qed.

Lemma sort_desc_perm (l : list Dict) : sort_desc l ≡ₚ l.
Proof.
  induction l as [|x l IH]; [done|]. simpl.
  by rewrite insert_desc_perm, IH.
Qed.

Lemma insert_desc_sorted (x : Dict) (l : list Dict) :
  StronglySorted desc_height l → StronglySorted desc_height (insert_desc x l).
Proof.
  induction l as [|y l IH]; intros Hl; simpl.
  - repeat constructor.
  - apply StronglySorted_inv in Hl as [Hl Hy].
    destruct (Z.ltb_spec (height_key x) (height_key y)).
    + constructor; [by apply IH|].
      rewrite insert_desc_perm. constructor; [unfold desc_height; lia|done].
    + constructor; [by constructor|].
      constructor; [unfold desc_height; lia|].
      eapply Forall_impl; [exact Hy|]. unfold desc_height. intros z Hz. simpl in Hz. lia.
Qed.

Lemma sort_desc_sorted (l : list Dict) : StronglySorted desc_height (sort_desc l).
Proof.
  induction l as [|x l IH]; simpl; [constructor|by apply insert_desc_sorted].
Qed.

Lemma insert_desc_stable (h : Z) (x : Dict) (l : list Dict) :
  filter (λ e, height_key e = h) (insert_desc x l)
  = filter (λ e, height_key e = h) (x :: l).
Proof.
  induction l as [|y l IH]; [done|]. simpl.
  destruct (Z.ltb_spec (height_key x) (height_key y)); [|done].
  rewrite (filter_cons _ y), IH, !(filter_cons _ x), (filter_cons _ y).
  repeat case_decide; try done; lia.
Qed.

(** Stability: the entries of any one height come out in the order they went in. *)
Lemma sort_desc_stable (h : Z) (l : list Dict) :
  filter (λ e, height_key e = h) (sort_desc l) = filter (λ e, height_key e = h) l.
Proof.
  induction l as [|x l IH]; [done|]. simpl.
  by rewrite insert_desc_stable, !(filter_cons _ x), IH.
Qed.

(** ** Entries *)

Lemma builds_lookup (fmt e : Dict) :
  builds fmt e →
  ∃ h, get_or fmt "height" (PInt 0) = PInt h
       ∧ label_of fmt = Ok (label_of_height h)
       ∧ quality e = Some (PStr (label_of_height h))
       ∧ e !! "height" = Some (PInt h)
       ∧ e !! "filesize" = Some (size_of fmt)
       ∧ e !! "vcodec" = Some (get_or fmt "vcodec" (PStr "none"))
       ∧ e !! "url" = Some (get_or fmt "url" (PStr ""))
       ∧ e !! "format_id" = Some (get_or fmt "format_id" (PStr "")).
Proof.
  intros (lbl & s & Hlbl & _ & ->).
  pose proof Hlbl as Hl. unfold label_of in Hl.
  apply create_quality_label_Ok in Hl as (h & Hh & ->).
  exists h. rewrite Hlbl. unfold quality, entry_of. rewrite Hh.
  repeat split; reflexivity.
Qed.

Lemma builds_not_highest (fmt e : Dict) :
  builds fmt e → quality e ≠ Some (PStr "Highest Available").
Proof.
  intros (h & _ & _ & Hq & _)%builds_lookup. rewrite Hq.
  intros [= H]. by apply label_of_height_not_highest in H.
Qed.

Lemma builds_height_key (fmt e : Dict) :
  builds fmt e → e !! "height" = Some (PInt (height_key e)).
Proof.
  intros (h & _ & _ & _ & Hh & _)%builds_lookup.
  unfold height_key. by rewrite Hh.
Qed.

Lemma highest_of_quality (first : Dict) :
  quality (highest_of first) = Some (PStr "Highest Available").
Proof.
  unfold quality, highest_of.
  rewrite lookup_insert_ne by done. apply lookup_insert_eq.
Qed.

Lemma process_formats_unfold (formats : list Dict) :
  _process_formats formats =
    match process_loop formats [] ∅ with
    | Ok processed => Ok (add_highest (sort_desc processed))
    | Raise e => Raise e
    end.
Proof. reflexivity. Qed.

(** The output is the sorted list of the entries built from the kept
    formats, with the synthetic entry in front when there is any. *)
Lemma process_formats_spec (formats out : list Dict) :
  _process_formats formats = Ok out →
  ∃ entries, Forall2 builds (kept_formats formats) entries
             ∧ out = add_highest (sort_desc entries).
Proof.
  rewrite process_formats_unfold.
  destruct (process_loop formats [] ∅) as [processed|e] eqn:Hloop; [|discriminate].
  intros [= <-]. apply process_loop_spec in Hloop as (entries & -> & HF).
  rewrite filter_unseen_empty in HF. exists entries. by split.
Qed.

(** ** Kept formats *)

Lemma first_per_label_sublist (l : list Dict) : first_per_label l `sublist_of` l.
Proof.
  induction l as [|x l IH]; [done|]. simpl.
  apply sublist_skip. etrans; [apply sublist_filter|done].
Qed.

Lemma kept_formats_sublist (formats : list Dict) :
  kept_formats formats `sublist_of` formats.
Proof.
  unfold kept_formats. etrans; [apply first_per_label_sublist|apply sublist_filter].
Qed.

Lemma kept_formats_usable (formats : list Dict) (fmt : Dict) :
  fmt ∈ kept_formats formats → usable fmt = true ∧ fmt ∈ formats.
Proof.
  intros H. eapply elem_of_sublist in H; [|apply first_per_label_sublist].
  by apply list_elem_of_filter in H.
Qed.

Lemma first_per_label_NoDup (l : list Dict) :
  NoDup (label_of <$> first_per_label l).
Proof.
  induction l as [|x l IH]; [constructor|]. simpl.
  apply NoDup_cons. split.
  - intros (g & Heq & Hg)%list_elem_of_fmap.
    apply list_elem_of_filter in Hg as [Hne _]. by apply Hne.
  - eapply sublist_NoDup; [exact IH|]. apply fmap_sublist, sublist_filter.
Qed.

Lemma first_per_label_nil (l : list Dict) : first_per_label l = [] ↔ l = [].
Proof. by destruct l. Qed.

(** The first format carrying a label is kept. *)
Lemma first_per_label_first (l1 l2 : list Dict) (x : Dict) :
  (∀ g, g ∈ l1 → label_of g ≠ label_of x) →
  x ∈ first_per_label (l1 ++ x :: l2).
Proof.
  induction l1 as [|a l1 IH]; intros Hl1; simpl.
  - apply list_elem_of_here.
  - apply list_elem_of_further, list_elem_of_filter. split.
    + intros Heq. eapply Hl1; [apply list_elem_of_here|done].
    + apply IH. intros g Hg. apply Hl1. by apply list_elem_of_further.
Qed.

Lemma kept_formats_first (pre post : list Dict) (fmt : Dict) :
  usable fmt = true →
  (∀ g, g ∈ pre → usable g = true → label_of g ≠ label_of fmt) →
  fmt ∈ kept_formats (pre ++ fmt :: post).
Proof.
  intros Hu Hpre. unfold kept_formats.
  rewrite filter_app, filter_cons_True by done.
  apply first_per_label_first.
  intros g [Hg Hin]%list_elem_of_filter. by apply Hpre.
Qed.

Lemma builds_functional (fmt e1 e2 : Dict) : builds fmt e1 → builds fmt e2 → e1 = e2.
Proof.
  intros (l1 & s1 & Hl1 & Hs1 & ->) (l2 & s2 & Hl2 & Hs2 & ->). congruence.
Qed.

Lemma builds_quality_label (fmt e : Dict) (lbl : string) :
  builds fmt e → (label_of fmt = Ok lbl ↔ quality e = Some (PStr lbl)).
Proof.
  intros (l & s & Hl & _ & ->). rewrite Hl. unfold quality, entry_of.
  rewrite lookup_insert_ne by done. rewrite lookup_insert_eq.
  split; congruence.
Qed.

Lemma Forall2_builds_NoDup (srcs entries : list Dict) :
  Forall2 builds srcs entries →
  NoDup (label_of <$> srcs) → NoDup (quality <$> entries).
Proof.
  induction 1 as [|fmt e srcs entries Hb HF IH]; [constructor|].
  rewrite !fmap_cons, !NoDup_cons. intros [Hnin Hnd]. split; [|by apply IH].
  intros (e' & Heq & He')%list_elem_of_fmap. apply Hnin.
  destruct Hb as (lbl & s & Hlbl & Hs & ->).
  apply (list_elem_of_lookup_1 entries) in He' as [i Hi].
  destruct (Forall2_lookup_r _ _ _ _ _ HF Hi) as (g & Hg & Hbg).
  apply list_elem_of_fmap. exists g. split; [|by eapply list_elem_of_lookup_2].
  rewrite Hlbl. symmetry. apply (builds_quality_label g e'); [done|].
  rewrite <- Heq. unfold quality, entry_of.
  rewrite lookup_insert_ne by done. apply lookup_insert_eq.
Qed.

Lemma Forall2_builds_not_highest (srcs entries : list Dict) :
  Forall2 builds srcs entries →
  Forall (λ e, quality e ≠ Some (PStr "Highest Available")) entries.
Proof.
  induction 1 as [|fmt e srcs entries Hb HF IH]; constructor; [|done].
  by eapply builds_not_highest.
Qed.

Lemma Forall2_builds_height (srcs entries : list Dict) :
  Forall2 builds srcs entries →
  Forall (λ e, e !! "height" = Some (PInt (height_key e))) entries.
Proof.
  induction 1 as [|fmt e srcs entries Hb HF IH]; constructor; [|done].
  by eapply builds_height_key.
Qed.

Lemma Forall2_builds_elem (srcs entries : list Dict) (fmt : Dict) :
  Forall2 builds srcs entries → fmt ∈ srcs → ∃ e, e ∈ entries ∧ builds fmt e.
Proof.
  intros HF [i Hi]%list_elem_of_lookup_1.
  destruct (Forall2_lookup_l _ _ _ _ _ HF Hi) as (e & He & Hb).
  exists e. split; [by eapply list_elem_of_lookup_2|done].
Qed.

Lemma non_synthetic_add_highest (l : list Dict) :
  Forall (λ e, quality e ≠ Some (PStr "Highest Available")) l →
  non_synthetic (add_highest l) = l.
Proof.
  intros Hl. assert (non_synthetic l = l) as Hid.
  { unfold non_synthetic. induction Hl as [|x l Hx Hl IH]; [done|].
    by rewrite filter_cons_True, IH. }
  destruct l as [|first l]; [done|]. unfold add_highest, non_synthetic.
  rewrite filter_cons_False; [exact Hid|].
  intros H. apply H. apply highest_of_quality.
Qed.

Lemma filter_none {A} (P : A → Prop) `{∀ x, Decision (P x)} (l : list A) :
  (∀ y, y ∈ l → ¬ P y) → filter P l = [].
Proof.
  induction l as [|a l IH]; intros Hl; [done|].
  rewrite filter_cons_False by (apply Hl, list_elem_of_here).
  apply IH. intros y Hy. apply Hl. by apply list_elem_of_further.
Qed.

Lemma NoDup_fmap_filter_singleton {A B} `{EqDecision B} (f : A → B) (l : list A) (x : A) :
  NoDup (f <$> l) → x ∈ l → filter (λ y, f y = f x) l = [x].
Proof.
  induction l as [|a l IH]; intros Hnd Hx; [by apply elem_of_nil in Hx|].
  rewrite fmap_cons, NoDup_cons in Hnd. destruct Hnd as [Hnin Hnd].
  assert (∀ y, y ∈ l → f y ≠ f a) as Hfresh.
  { intros y Hy Heq. apply Hnin. rewrite <- Heq. by apply list_elem_of_fmap_2. }
  apply elem_of_cons in Hx as [->|Hx].
  - rewrite filter_cons_True by done. f_equal. by apply filter_none.
  - rewrite filter_cons_False; [by apply IH|].
    intros Heq. by apply (Hfresh x).
Qed.

Lemma filter_quality_add_highest (lbl : string) (l : list Dict) :
  lbl ≠ "Highest Available" →
  filter (λ x, quality x = Some (PStr lbl)) (add_highest l)
  = filter (λ x, quality x = Some (PStr lbl)) l.
Proof.
  intros Hne. destruct l as [|first l]; [done|]. unfold add_highest.
  rewrite filter_cons_False; [done|].
  rewrite highest_of_quality. intros [= H]. by apply Hne.
Qed.

Lemma label_of_not_highest (fmt : Dict) (lbl : string) :
  label_of fmt = Ok lbl → lbl ≠ "Highest Available".
Proof.
  unfold label_of. intros (h & _ & ->)%create_quality_label_Ok.
  apply label_of_height_not_highest.
Qed.

Lemma size_of_filesize (fmt : Dict) (n : Z) :
  n ≠ 0 → fmt !! "filesize" = Some (PInt n) → size_of fmt = PInt n.
Proof.
  intros Hn Hf. unfold size_of, get_or. rewrite Hf. simpl.
  destruct (Z.eqb_spec n 0); [done|reflexivity].
Qed.

(** Two usable formats with one label: only the first gets an entry. *)
Lemma process_formats_same_label (a b ea : Dict) (lbl : string) :
  usable a = true → usable b = true →
  label_of a = Ok lbl → label_of b = Ok lbl → builds a ea →
  _process_formats [a; b] = Ok [highest_of ea; ea].
Proof.
  intros Ha Hb Hla Hlb (l & s & Hl & Hs & ->).
  assert (l = lbl) as -> by congruence.
  rewrite process_formats_unfold, process_loop_cons, Ha, Hla.
  cbn [mbind result_bind].
  rewrite bool_decide_eq_false_2 by apply not_elem_of_empty.
  rewrite Hs. cbn [mbind result_bind].
  rewrite process_loop_cons, Hb, Hlb. cbn [mbind result_bind].
  rewrite bool_decide_eq_true_2 by set_solver.
  reflexivity.
Qed.

Lemma usable_true_iff (fmt : Dict) :
  usable fmt = true ↔
    truthy (get fmt "url") = true
    ∧ get fmt "filesize" ≠ PInt 0
    ∧ get_or fmt "vcodec" (PStr "none") ≠ PStr "none".
Proof.
  unfold usable, py_eq.
  rewrite !andb_true_iff, !negb_true_iff, !bool_decide_eq_false. tauto.
Qed.

Lemma first_per_label_elem (l : list Dict) (x : Dict) :
  x ∈ first_per_label l →
  ∃ l1 l2, l = l1 ++ x :: l2 ∧ ∀ g, g ∈ l1 → label_of g ≠ label_of x.
Proof.
  induction l as [|a l IH]; simpl; [by intros ?%elem_of_nil|].
  intros [->|Hx]%elem_of_cons.
  - exists [], l. split; [done|]. by intros g ?%elem_of_nil.
  - apply list_elem_of_filter in Hx as [Hne Hx].
    destruct (IH Hx) as (l1 & l2 & -> & Hl1).
    exists (a :: l1), l2. split; [done|].
    intros g [->|Hg]%elem_of_cons; [congruence|by apply Hl1].
Qed.

Lemma filter_split {A} (P : A → Prop) `{∀ x, Decision (P x)} (l l1 l2 : list A) (x : A) :
  filter P l = l1 ++ x :: l2 →
  ∃ pre post, l = pre ++ x :: post ∧ filter P pre = l1 ∧ filter P post = l2.
Proof.
  revert l1. induction l as [|a l IH]; intros l1.
  - rewrite filter_nil. by destruct l1.
  - rewrite filter_cons. case_decide as Ha.
    + destruct l1 as [|b l1]; simpl.
      * intros [= -> Hl]. exists [], l. by rewrite filter_nil.
      * intros [= -> Hl]. destruct (IH _ Hl) as (pre & post & -> & Hpre & Hpost).
        exists (b :: pre), post. by rewrite filter_cons_True, Hpre.
    + intros Hl. destruct (IH _ Hl) as (pre & post & -> & Hpre & Hpost).
      exists (a :: pre), post. by rewrite filter_cons_False.
Qed.

(** A format is kept exactly at a position where it is usable and no
    usable format before it carries its label. *)
Lemma kept_formats_elem (formats : list Dict) (fmt : Dict) :
  fmt ∈ kept_formats formats ↔
    ∃ pre post, formats = pre ++ fmt :: post
                ∧ usable fmt = true
                ∧ ∀ g, g ∈ pre → usable g = true → label_of g ≠ label_of fmt.
Proof.
  split.
  - intros Hk. pose proof (kept_formats_usable _ _ Hk) as [Hu _].
    apply first_per_label_elem in Hk as (l1 & l2 & Hsplit & Hl1).
    apply filter_split in Hsplit as (pre & post & -> & <- & _).
    exists pre, post. split; [done|]. split; [done|].
    intros g Hg Hug. apply Hl1, list_elem_of_filter. by split.
  - intros (pre & post & -> & Hu & Hpre). by apply kept_formats_first.
Qed.

Lemma Forall2_builds_elem_r (srcs entries : list Dict) (e : Dict) :
  Forall2 builds srcs entries → e ∈ entries → ∃ fmt, fmt ∈ srcs ∧ builds fmt e.
Proof.
  intros HF [i Hi]%list_elem_of_lookup_1.
  destruct (Forall2_lookup_r _ _ _ _ _ HF Hi) as (fmt & Hfmt & Hb).
  exists fmt. split; [by eapply list_elem_of_lookup_2|done].
Qed.

Lemma elem_of_add_highest (l : list Dict) (e : Dict) :
  e ∈ add_highest l → e ∈ l ∨ ∃ first, first ∈ l ∧ e = highest_of first.
Proof.
  destruct l as [|first l]; [by intros ?%elem_of_nil|]. unfold add_highest.
  intros [->|He]%elem_of_cons; [|by left].
  right. exists first. split; [apply list_elem_of_here|done].
Qed.

Lemma kept_formats_nil_iff (formats : list Dict) :
  kept_formats formats = [] ↔ Forall (λ fmt, usable fmt = false) formats.
Proof.
  unfold kept_formats. rewrite first_per_label_nil. split.
  - intros Hnil. apply Forall_forall. intros fmt Hin.
    destruct (usable fmt) eqn:Hu; [|done].
    exfalso. eapply (filter_nil_not_elem_of _ formats fmt); [exact Hnil|exact Hu|exact Hin].
  - intros HF. apply filter_none. intros fmt Hin.
    rewrite Forall_forall in HF. rewrite (HF fmt Hin). discriminate.
Qed.

(** Entries with distinct labels have distinct heights, the label being a
    function of the height. *)
Lemma kept_heights_distinct (srcs entries : list Dict) :
  Forall2 builds srcs entries →
  NoDup (label_of <$> srcs) → NoDup (height_key <$> entries).
Proof.
  intros HF Hnd. pose proof (Forall2_builds_NoDup _ _ HF Hnd) as Hq.
  assert (quality <$> entries
          = (λ h, Some (PStr (label_of_height h))) <$> (height_key <$> entries)) as Heq.
  { rewrite <- list_fmap_compose. clear Hnd Hq.
    induction HF as [|fmt e srcs entries Hb HF IH]; [done|].
    rewrite !fmap_cons, IH. f_equal.
    pose proof (builds_height_key _ _ Hb) as Hk.
    apply builds_lookup in Hb as (h & _ & _ & Hql & Hh & _).
    simpl. rewrite Hql. congruence. }
  rewrite Heq in Hq. by apply NoDup_fmap_1 in Hq.
Qed.

(** ** Claims on the quality label *)

Lemma append_char_inj (s1 s2 : string) (c : ascii) :
  s1 +:+ String c EmptyString = s2 +:+ String c EmptyString → s1 = s2.
Proof.
  revert s2. induction s1 as [|a s1 IH]; intros [|b s2]; simpl; try done.
  - intros [= _ H]. by destruct s2.
  - intros [= _ H]. by destruct s1.
  - intros [= -> H]. f_equal. by apply IH.
Qed.

Lemma label_of_height_multi_k (h : Z) :
  4320 ≤ h → label_of_height h = pretty (h / 1000) +:+ "K".
Proof.
  intros Hh. unfold label_of_height.
  destruct (Z.leb_spec 4320 h); [done|lia].
Qed.

Lemma label_of_height_4K (h : Z) : 2160 ≤ h ≤ 4999 → label_of_height h = "4K".
Proof.
  intros Hh. unfold label_of_height.
  destruct (Z.leb_spec 4320 h).
  - replace (h / 1000) with 4; [reflexivity|].
    apply (Z.div_unique h 1000 4 (h - 4000)); lia.
  - destruct (Z.leb_spec 2160 h); [done|lia].
Qed.

(** C4. The quality label depends on the height alone: from 4320 up it is
    the truncated thousands of the height followed by K, below that the
    label of the first breakpoint (2160, 1440, 1080, 720, 480, 360, 240,
    144, scanned from the highest) that the height reaches, and under 144
    the height followed by p.  Width and frame rate play no part.  Heights
    2160, 2159 and 1079 give 4K, 2K and 720p. *)
Theorem quality_label_by_breakpoints (height : Z) (width fps : PyVal) :
  _create_quality_label (PInt height) width fps = Ok (label_by_breakpoints height)
  ∧ _create_quality_label (PInt 2160) width fps = Ok "4K"
  ∧ _create_quality_label (PInt 2159) width fps = Ok "2K"
  ∧ _create_quality_label (PInt 1079) width fps = Ok "720p".
Proof.
  rewrite !create_quality_label_int. split; [|by repeat split].
  f_equal. unfold label_of_height, label_by_breakpoints, breakpoints.
  destruct (Z.leb_spec 4320 height).
  - by rewrite Z.quot_div_nonneg by lia.
  - simpl.
    repeat (match goal with
            | |- context [?n <=? height] => destruct (n <=? height); simpl
            end); reflexivity.
Qed.

Lemma div_1000_eq (g k : Z) : g / 1000 = k ↔ 1000 * k ≤ g < 1000 * k + 1000.
Proof.
  pose proof (Z.div_mod g 1000 ltac:(lia)).
  pose proof (Z.mod_pos_bound g 1000 ltac:(lia)). lia.
Qed.

Lemma label_of_height_5K (g : Z) : label_of_height g = "5K" ↔ 5000 ≤ g ≤ 5999.
Proof.
  split.
  - unfold label_of_height.
    repeat (match goal with
            | |- context [?n <=? g] => destruct (Z.leb_spec n g)
            end); try discriminate.
    + intros Heq. change "5K" with (pretty 5 +:+ "K") in Heq.
      apply append_char_inj in Heq. apply (inj pretty) in Heq.
      apply div_1000_eq in Heq. lia.
    + intros Heq. apply (f_equal last_char) in Heq.
      rewrite (last_char_app _ "p"%char) in Heq. discriminate.
  - intros Hg. rewrite label_of_height_multi_k by lia.
    replace (g / 1000) with 5; [reflexivity|].
    symmetry. apply div_1000_eq. lia.
Qed.

(** C10. Every height from 4320 to 4999 gets the label 4K, the label of
    the heights from 2160 to 4319; so of two usable formats, one of each
    range (4320 and 2160, say), only the one that comes first gets an
    entry.  From 4320 up the label is the thousands of the height followed
    by K, which is 4 up to 4999 and at least 5 from 5000 on: 5K is the next
    label, produced exactly by the heights from 5000 to 5999. *)
Theorem label_4K_up_to_4999 (h h' : Z) (width fps : PyVal) :
  4320 ≤ h ≤ 4999 → 2160 ≤ h' ≤ 4319 →
  _create_quality_label (PInt h) width fps = Ok "4K"
  ∧ _create_quality_label (PInt h') width fps = Ok "4K"
  ∧ (∀ a b ea eb : Dict,
       usable a = true → usable b = true →
       get_or a "height" (PInt 0) = PInt h →
       get_or b "height" (PInt 0) = PInt h' →
       builds a ea → builds b eb →
       _process_formats [a; b] = Ok [highest_of ea; ea]
       ∧ _process_formats [b; a] = Ok [highest_of eb; eb])
  ∧ (∀ g, 4320 ≤ g →
       _create_quality_label (PInt g) width fps = Ok (pretty (g / 1000) +:+ "K")
       ∧ (g / 1000 = 4 ↔ g ≤ 4999)
       ∧ (5 ≤ g / 1000 ↔ 5000 ≤ g))
  ∧ (∀ g, 4320 ≤ g → _create_quality_label (PInt g) width fps ≠ Ok "4K" → 5000 ≤ g)
  ∧ (∀ g, _create_quality_label (PInt g) width fps = Ok "5K" ↔ 5000 ≤ g ≤ 5999).
Proof.
  intros Hh Hh'.
  assert (∀ g, 2160 ≤ g ≤ 4999 →
            ∀ w f, _create_quality_label (PInt g) w f = Ok "4K") as H4K.
  { intros g Hg w f. by rewrite create_quality_label_int, label_of_height_4K. }
  split; [apply H4K; lia|]. split; [apply H4K; lia|].
  split; [|split; [|split]].
  - intros a b ea eb Ha Hb Hha Hhb Hea Heb.
    assert (label_of a = Ok "4K") as Hla.
    { unfold label_of. rewrite Hha. apply H4K. lia. }
    assert (label_of b = Ok "4K") as Hlb.
    { unfold label_of. rewrite Hhb. apply H4K. lia. }
    split; by eapply process_formats_same_label.
  - intros g Hg. rewrite create_quality_label_int, label_of_height_multi_k by done.
    split; [done|].
    pose proof (Z.div_mod g 1000 ltac:(lia)).
    pose proof (Z.mod_pos_bound g 1000 ltac:(lia)). lia.
  - intros g Hg Hne. destruct (Z.le_gt_cases 5000 g) as [|Hlt]; [done|].
    exfalso. apply Hne, H4K. lia.
  - intros g. rewrite create_quality_label_int. rewrite <- label_of_height_5K.
    split; [by intros [= ->]|by intros ->].
Qed.

Lemma label_4K_up_to_4999_witness :
  4320 ≤ 4320 ≤ 4999 ∧ 2160 ≤ 2160 ≤ 4319
  ∧ _create_quality_label (PInt 4320) (PInt 7680) (PInt 30) = Ok "4K"
  ∧ _create_quality_label (PInt 2160) (PInt 7680) (PInt 30) = Ok "4K".
Proof.
  assert (4320 ≤ 4320 ≤ 4999) as H1 by lia.
  assert (2160 ≤ 2160 ≤ 4319) as H2 by lia.
  split; [exact H1|]. split; [exact H2|].
  destruct (label_4K_up_to_4999 4320 2160 (PInt 7680) (PInt 30) H1 H2)
    as (Ha & Hb & _).
  split; [exact Ha|exact Hb].
Defined.

(** ** Claims on the normalised list *)

(** The sample list: the audio-only format, the format of size 0 and the
    later formats of a label already seen are gone, the rest is in
    descending height behind the synthetic entry. *)
Example sample_out_view :
  (λ e : Dict, (e !! "quality", e !! "format_id", e !! "height")) <$> sample_out
  = [(Some (PStr "Highest Available"), Some (PStr "best"), Some (PInt 2160));
     (Some (PStr "4K"), Some (PStr "401"), Some (PInt 2160));
     (Some (PStr "1080p"), Some (PStr "137"), Some (PInt 1080));
     (Some (PStr "480p"), Some (PStr "135"), Some (PInt 480));
     (Some (PStr "360p"), Some (PStr "18"), Some (PInt 360))].
Proof. reflexivity. Qed.

(** C1. In every output of the normaliser the entries other than the
    synthetic one carry integer heights in descending order, no two of them
    have the same quality label, and they are the entries built from the
    kept raw formats, those of any one height standing in the order of the
    input (the sort is stable and has no second key). *)
Theorem non_synthetic_sorted_unique_stable (formats out : list Dict) :
  _process_formats formats = Ok out →
  Forall (λ e, e !! "height" = Some (PInt (height_key e))) (non_synthetic out)
  ∧ StronglySorted desc_height (non_synthetic out)
  ∧ NoDup (quality <$> non_synthetic out)
  ∧ ∃ entries, kept_formats formats `sublist_of` formats
      ∧ Forall2 builds (kept_formats formats) entries
      ∧ non_synthetic out ≡ₚ entries
      ∧ ∀ h, filter (λ e, height_key e = h) (non_synthetic out)
             = filter (λ e, height_key e = h) entries.
Proof.
  intros (entries & HF & ->)%process_formats_spec.
  rewrite non_synthetic_add_highest.
  2:{ rewrite sort_desc_perm. by eapply Forall2_builds_not_highest. }
  split; [|split; [|split]].
  - rewrite sort_desc_perm. by eapply Forall2_builds_height.
  - apply sort_desc_sorted.
  - rewrite sort_desc_perm. eapply Forall2_builds_NoDup; [exact HF|].
    apply first_per_label_NoDup.
  - exists entries. split; [apply kept_formats_sublist|].
    split; [done|]. split; [apply sort_desc_perm|].
    intros h. apply sort_desc_stable.
Qed.

Lemma non_synthetic_sorted_unique_stable_witness :
  _process_formats sample_formats = Ok sample_out
  ∧ StronglySorted desc_height (non_synthetic sample_out)
  ∧ NoDup (quality <$> non_synthetic sample_out).
Proof.
  assert (_process_formats sample_formats = Ok sample_out) as H by reflexivity.
  split; [exact H|].
  destruct (non_synthetic_sorted_unique_stable sample_formats sample_out H)
    as (_ & Hs & Hn & _).
  split; [exact Hs|exact Hn].
Defined.

(** C2. When the surviving (filtered, deduplicated) formats are not empty
    the output starts with an entry whose quality is Highest Available and
    whose format identifier is best, every other field of which equals the
    same field of the second entry; when none survives the output is the
    empty list. *)
Theorem highest_available_first (formats out : list Dict) :
  _process_formats formats = Ok out →
  (kept_formats formats = [] → out = [])
  ∧ (kept_formats formats ≠ [] →
     ∃ first second rest,
       out = first :: second :: rest
       ∧ first !! "quality" = Some (PStr "Highest Available")
       ∧ first !! "format_id" = Some (PStr "best")
       ∧ ∀ k, k ≠ "quality" → k ≠ "format_id" → first !! k = second !! k).
Proof.
  intros (entries & HF & ->)%process_formats_spec. split.
  - intros Hk. rewrite Hk in HF. by apply Forall2_nil_inv_l in HF as ->.
  - intros Hk.
    destruct (sort_desc entries) as [|second rest] eqn:Hsort.
    { pose proof (sort_desc_perm entries) as Hp. rewrite Hsort in Hp.
      apply Permutation_nil_l in Hp. subst entries.
      by apply Forall2_nil_inv_r in HF. }
    exists (highest_of second), second, rest. unfold highest_of.
    split; [done|]. split; [|split].
    + rewrite lookup_insert_ne by done. apply lookup_insert_eq.
    + apply lookup_insert_eq.
    + intros k Hq Hf. by rewrite !lookup_insert_ne.
Qed.

Lemma highest_available_first_witness :
  _process_formats sample_formats = Ok sample_out
  ∧ kept_formats sample_formats ≠ []
  ∧ ∃ first second rest,
      sample_out = first :: second :: rest
      ∧ first !! "quality" = Some (PStr "Highest Available")
      ∧ first !! "format_id" = Some (PStr "best")
      ∧ ∀ k, k ≠ "quality" → k ≠ "format_id" → first !! k = second !! k.
Proof.
  assert (_process_formats sample_formats = Ok sample_out) as H by reflexivity.
  assert (kept_formats sample_formats ≠ []) as Hk
    by (unfold sample_formats; rewrite kept_formats_cons; simpl; discriminate).
  split; [exact H|]. split; [exact Hk|].
  exact (proj2 (highest_available_first sample_formats sample_out H) Hk).
Defined.

(** C3. Deduplication keeps the first format of a label: when a usable
    format is the first of the input to produce its label, the output has
    exactly one entry with that label and it is the entry built from that
    format, whatever the sizes and codecs of the later formats with the same
    label.  In particular, of two usable formats that both give 1080p, the
    first of size 100 and the second of size 500, the output has exactly one
    1080p entry, of size 100. *)
Theorem first_format_wins (formats out pre post : list Dict) (fmt : Dict) (lbl : string) :
  _process_formats formats = Ok out →
  formats = pre ++ fmt :: post →
  usable fmt = true →
  label_of fmt = Ok lbl →
  (∀ g, g ∈ pre → usable g = true → label_of g ≠ Ok lbl) →
  (∃ e, builds fmt e ∧ filter (λ x, quality x = Some (PStr lbl)) out = [e])
  ∧ (∀ f1 f2 : Dict,
       usable f1 = true → usable f2 = true →
       label_of f1 = Ok "1080p" → label_of f2 = Ok "1080p" →
       f1 !! "filesize" = Some (PInt 100) → f2 !! "filesize" = Some (PInt 500) →
       ∃ out12 e, _process_formats [f1; f2] = Ok out12
         ∧ filter (λ x, quality x = Some (PStr "1080p")) out12 = [e]
         ∧ builds f1 e
         ∧ e !! "filesize" = Some (PInt 100)).
Proof.
  intros Hout -> Hu Hlbl Hpre. split.
  - apply process_formats_spec in Hout as (entries & HF & ->).
    assert (fmt ∈ kept_formats (pre ++ fmt :: post)) as Hk.
    { apply kept_formats_first; [done|]. by rewrite Hlbl. }
    destruct (Forall2_builds_elem _ _ _ HF Hk) as (e & He & Hb).
    exists e. split; [done|].
    rewrite filter_quality_add_highest by (by eapply label_of_not_highest).
    pose proof (proj1 (builds_quality_label _ _ lbl Hb) Hlbl) as Hq.
    rewrite <- Hq. apply NoDup_fmap_filter_singleton.
    + rewrite sort_desc_perm. eapply Forall2_builds_NoDup; [exact HF|].
      apply first_per_label_NoDup.
    + by rewrite sort_desc_perm.
  - intros f1 f2 Hu1 Hu2 Hl1 Hl2 Hs1 Hs2.
    assert (size_of f1 = PInt 100) as Hsize by (by apply size_of_filesize).
    assert (builds f1 (entry_of f1 "1080p" "100.0 B")) as Hb.
    { exists "1080p", "100.0 B". by rewrite Hsize. }
    exists [highest_of (entry_of f1 "1080p" "100.0 B"); entry_of f1 "1080p" "100.0 B"],
      (entry_of f1 "1080p" "100.0 B").
    split; [by eapply process_formats_same_label|].
    split; [|split; [done|]].
    + rewrite filter_cons_False.
      2:{ rewrite highest_of_quality. discriminate. }
      by rewrite filter_cons_True.
    + unfold entry_of. rewrite Hsize. reflexivity.
Qed.

Lemma first_format_wins_witness :
  _process_formats two_1080p = Ok two_1080p_out
  ∧ ∃ e, builds (raw_format "https://cdn/a" "137" "avc1" 1080 100) e
         ∧ filter (λ x, quality x = Some (PStr "1080p")) two_1080p_out = [e].
Proof.
  assert (_process_formats two_1080p = Ok two_1080p_out) as H by reflexivity.
  split; [exact H|].
  refine (proj1 (first_format_wins two_1080p two_1080p_out []
    [raw_format "https://cdn/b" "299" "vp9" 1080 500]
    (raw_format "https://cdn/a" "137" "avc1" 1080 100) "1080p"
    H eq_refl eq_refl eq_refl _)).
  intros g Hg. by apply elem_of_nil in Hg.
Defined.

(** C5, as stated, fails: a format that passes all three guards is still
    left out when an earlier one has its label.  Both sample formats are
    usable, yet the output holds the entry of the first only, once as the
    synthetic entry and once as itself. *)
Lemma duplicate_label_also_excluded :
  _process_formats two_1080p = Ok two_1080p_out
  ∧ Forall (λ fmt, usable fmt = true) two_1080p
  ∧ (λ e : Dict, e !! "url") <$> two_1080p_out
    = [Some (PStr "https://cdn/a"); Some (PStr "https://cdn/a")]
  ∧ ¬ only_guards_exclude two_1080p two_1080p_out.
Proof.
  split; [reflexivity|]. split; [by repeat constructor|].
  split; [reflexivity|].
  intros (entries & HF & Hp).
  apply Forall2_length in HF. apply Permutation_length in Hp.
  assert (length (filter (λ fmt, usable fmt = true) two_1080p) = 2%nat) as H2
    by reflexivity.
  assert (length (non_synthetic two_1080p_out) = 1%nat) as H1 by reflexivity.
  congruence.
Qed.

(** C5, amended.  The non-synthetic entries of the output are those built
    from the kept formats, and a format is kept exactly at a position where
    it has a truthy url, a size field different from 0 and a video codec
    (none when absent) different from none, and where no usable format
    before it has the same label.  Hence a format with video codec none,
    with size field 0, or without url is never kept, and no entry of the
    output has video codec none. *)
Theorem excluded_iff_unusable_or_duplicate (formats out : list Dict) :
  _process_formats formats = Ok out →
  (∃ entries, Forall2 builds (kept_formats formats) entries
              ∧ non_synthetic out ≡ₚ entries)
  ∧ (∀ fmt, fmt ∈ kept_formats formats ↔
       ∃ pre post, formats = pre ++ fmt :: post
         ∧ (truthy (get fmt "url") = true
            ∧ get fmt "filesize" ≠ PInt 0
            ∧ get_or fmt "vcodec" (PStr "none") ≠ PStr "none")
         ∧ ∀ g, g ∈ pre → usable g = true → label_of g ≠ label_of fmt)
  ∧ (∀ fmt, get_or fmt "vcodec" (PStr "none") = PStr "none" →
            fmt ∉ kept_formats formats)
  ∧ (∀ fmt, fmt !! "filesize" = Some (PInt 0) → fmt ∉ kept_formats formats)
  ∧ (∀ fmt, truthy (get fmt "url") = false → fmt ∉ kept_formats formats)
  ∧ (∀ e, e ∈ out → e !! "vcodec" ≠ Some (PStr "none")).
Proof.
  intros (entries & HF & ->)%process_formats_spec.
  assert (∀ fmt, fmt ∈ kept_formats formats →
            truthy (get fmt "url") = true
            ∧ get fmt "filesize" ≠ PInt 0
            ∧ get_or fmt "vcodec" (PStr "none") ≠ PStr "none") as Hkept.
  { intros fmt [Hu _]%kept_formats_usable. by apply usable_true_iff. }
  split; [|split; [|split; [|split; [|split]]]].
  - exists entries. split; [done|].
    rewrite non_synthetic_add_highest; [apply sort_desc_perm|].
    rewrite sort_desc_perm. by eapply Forall2_builds_not_highest.
  - intros fmt. rewrite kept_formats_elem.
    split; intros (pre & post & Hsplit & Hu & Hpre); exists pre, post;
      (split; [done|]); (split; [by apply usable_true_iff|done]).
  - intros fmt Hv Hk. by apply Hkept in Hk as (_ & _ & ?).
  - intros fmt Hs Hk. apply Hkept in Hk as (_ & Hne & _).
    apply Hne. unfold get. by rewrite Hs.
  - intros fmt Hurl Hk. apply Hkept in Hk as (? & _ & _). congruence.
  - assert (∀ e, e ∈ sort_desc entries → e !! "vcodec" ≠ Some (PStr "none")) as Hv.
    { intros e He. rewrite sort_desc_perm in He.
      destruct (Forall2_builds_elem_r _ _ _ HF He) as (fmt & Hfmt & Hb).
      apply builds_lookup in Hb as (h & _ & _ & _ & _ & _ & -> & _).
      apply Hkept in Hfmt as (_ & _ & Hne). congruence. }
    intros e [He|(first & Hfirst & ->)]%elem_of_add_highest; [by apply Hv|].
    unfold highest_of. rewrite !lookup_insert_ne by done. by apply Hv.
Qed.

Lemma excluded_iff_unusable_or_duplicate_witness :
  _process_formats sample_formats = Ok sample_out
  ∧ (∃ entries, Forall2 builds (kept_formats sample_formats) entries
                ∧ non_synthetic sample_out ≡ₚ entries)
  ∧ ∀ e, e ∈ sample_out → e !! "vcodec" ≠ Some (PStr "none").
Proof.
  assert (_process_formats sample_formats = Ok sample_out) as H by reflexivity.
  split; [exact H|].
  destruct (excluded_iff_unusable_or_duplicate sample_formats sample_out H)
    as (He & _ & _ & _ & _ & Hv).
  split; [exact He|exact Hv].
Defined.

(** ** Claims on the quality resolver *)

(** C6, as stated, fails on an identifier that is supplied but empty: the
    code tests the identifier for truth, so the empty string goes to the
    plain fallback and is not passed through. *)
Lemma empty_identifier_falls_back :
  download_video_format "720p" (Some "") = plain_best
  ∧ resolver_by_rules "720p" (Some "") = ""
  ∧ download_video_format "720p" (Some "") ≠ resolver_by_rules "720p" (Some "").
Proof. by repeat split. Qed.

(** C6, amended.  The first matching rule gives the expression: the
    combined best-video and best-audio expression when the label is Highest
    Available or the identifier is best; else the identifier itself when one
    is supplied and is not the empty string; else, the identifier being
    absent or empty, the plain fallback.  Highest Available without an
    identifier gives the combined expression, which is not the fallback.  On
    every input but the empty identifier this is the rule as first stated. *)
Theorem download_format_rules (quality : string) (format_id : option string) :
  (quality = "Highest Available" ∨ format_id = Some "best" →
     download_video_format quality format_id = combined_best)
  ∧ (∀ fid, quality ≠ "Highest Available" → format_id = Some fid →
       fid ≠ "best" → fid ≠ "" → download_video_format quality format_id = fid)
  ∧ (quality ≠ "Highest Available" → format_id = None ∨ format_id = Some "" →
       download_video_format quality format_id = plain_best)
  ∧ download_video_format "Highest Available" None = combined_best
  ∧ combined_best ≠ plain_best
  ∧ (format_id ≠ Some "" →
       download_video_format quality format_id = resolver_by_rules quality format_id).
Proof.
  unfold download_video_format, resolver_by_rules.
  split; [|split; [|split; [|split; [|split]]]].
  - intros [-> | ->].
    + reflexivity.
    + by rewrite bool_decide_eq_true_2, orb_true_r.
  - intros fid Hq -> Hb He.
    apply String.eqb_neq in Hq as ->. apply String.eqb_neq in He as ->.
    rewrite bool_decide_eq_false_2 by congruence. reflexivity.
  - intros Hq Hf. apply String.eqb_neq in Hq as ->.
    by destruct Hf as [-> | ->].
  - reflexivity.
  - discriminate.
  - intros Hne. destruct (String.eqb_spec quality "Highest Available") as [->|Hq].
    + reflexivity.
    + simpl. destruct (decide (format_id = Some "best")) as [->|Hb].
      * by rewrite !bool_decide_eq_true_2 by auto.
      * rewrite !bool_decide_eq_false_2 by tauto.
        destruct format_id as [fid|]; [|done].
        destruct (String.eqb_spec fid "") as [->|]; [done|reflexivity].
Qed.

Lemma download_format_rules_witness :
  download_video_format "Highest Available" None = combined_best
  ∧ download_video_format "1080p" (Some "137") = "137"
  ∧ download_video_format "1080p" None = plain_best.
Proof.
  split; [|split].
  - apply (proj1 (download_format_rules "Highest Available" None)).
    left. reflexivity.
  - apply (proj1 (proj2 (download_format_rules "1080p" (Some "137")))).
    + discriminate.
    + reflexivity.
    + discriminate.
    + discriminate.
  - apply (proj1 (proj2 (proj2 (download_format_rules "1080p" None)))).
    + discriminate.
    + left. reflexivity.
Defined.

(** ** Claims on the preview response *)

Lemma utf8_take_length (n : nat) (s : string) :
  utf8_length (utf8_take n s) = Nat.min (utf8_length s) n.
Proof.
  revert n. induction s as [|c s IH]; intros n; simpl; [done|].
  destruct (is_continuation c) eqn:Hc; simpl; rewrite ?Hc.
  - apply IH.
  - destruct n as [|n]; simpl; [done|]. by rewrite Hc, IH.
Qed.

Lemma utf8_take_prefix (n : nat) (s : string) :
  String.prefix (utf8_take n s) s = true.
Proof.
  revert n. induction s as [|c s IH]; intros n; simpl; [done|].
  destruct (is_continuation c); [|destruct n as [|n]; [done|]]; simpl;
    (destruct (ascii_dec c c); [apply IH|done]).
Qed.

Lemma utf8_take_all (n : nat) (s : string) :
  (utf8_length s ≤ n)%nat → utf8_take n s = s.
Proof.
  revert n. induction s as [|c s IH]; intros n; simpl; [done|].
  destruct (is_continuation c).
  - intros Hn. by rewrite IH.
  - destruct n as [|n]; [lia|]. intros Hn. rewrite IH; [done|lia].
Qed.

(** C7, as stated, fails on a description that was not truncated: the
    ellipsis is appended to every non-empty description. *)
Lemma short_description_gets_ellipsis :
  description_of (<["description" := PStr "Hi"]> ∅) = Ok "Hi..."
  ∧ description_by_rule "Hi" = "Hi"
  ∧ description_of (<["description" := PStr "Hi"]> ∅) ≠ Ok (description_by_rule "Hi").
Proof. by repeat split. Qed.

(** C7, amended.  The description field is the first 200 characters of
    the original description (all of it when it has no more) followed by an
    ellipsis, whenever the original is not empty, truncated or not; an empty
    or absent description gives the empty string.  For an original of more
    than 200 characters this is the rule as first stated.  Characters are
    code points, of one or several bytes. *)
Theorem description_always_ellipsis (info : Dict) (original : string) :
  info !! "description" = Some (PStr original) →
  (original ≠ "" →
     ∃ head, description_of info = Ok (head +:+ "...")
             ∧ head = utf8_take 200 original
             ∧ utf8_length head = Nat.min (utf8_length original) 200
             ∧ String.prefix head original = true
             ∧ ((utf8_length original ≤ 200)%nat → head = original))
  ∧ (original = "" → description_of info = Ok "")
  ∧ ((200 < utf8_length original)%nat →
       description_of info = Ok (description_by_rule original))
  ∧ (∀ info' : Dict,
       info' !! "description" = None ∨ info' !! "description" = Some PNone →
       description_of info' = Ok "").
Proof.
  intros Hd.
  assert (original ≠ "" →
          description_of info = Ok (utf8_take 200 original +:+ "...")) as Hne.
  { intros Ho. unfold description_of, get_or. rewrite Hd. simpl.
    by apply String.eqb_neq in Ho as ->. }
  split; [|split; [|split]].
  - intros Ho. exists (utf8_take 200 original).
    split; [by apply Hne|]. split; [done|].
    split; [apply utf8_take_length|].
    split; [apply utf8_take_prefix|apply utf8_take_all].
  - intros ->. unfold description_of, get_or. by rewrite Hd.
  - intros Hlen. rewrite Hne by (intros ->; simpl in Hlen; lia).
    unfold description_by_rule.
    destruct (Nat.leb_spec (utf8_length original) 200); [lia|done].
  - intros info' [H|H]; unfold description_of, get_or; by rewrite H.
Qed.

Lemma description_always_ellipsis_witness :
  (<["description" := PStr (string_repeat 70 euro)]> ∅ : Dict) !! "description"
  = Some (PStr (string_repeat 70 euro))
  ∧ string_repeat 70 euro ≠ ""
  ∧ String.length (string_repeat 70 euro) = 210%nat
  ∧ ∃ head, description_of (<["description" := PStr (string_repeat 70 euro)]> ∅)
            = Ok (head +:+ "...")
            ∧ head = utf8_take 200 (string_repeat 70 euro)
            ∧ utf8_length head = Nat.min (utf8_length (string_repeat 70 euro)) 200
            ∧ String.prefix head (string_repeat 70 euro) = true
            ∧ ((utf8_length (string_repeat 70 euro) ≤ 200)%nat
               → head = string_repeat 70 euro).
Proof.
  assert ((<["description" := PStr (string_repeat 70 euro)]> ∅ : Dict) !! "description"
          = Some (PStr (string_repeat 70 euro))) as H by reflexivity.
  assert (string_repeat 70 euro ≠ "") as Hne by discriminate.
  split; [exact H|]. split; [exact Hne|]. split; [reflexivity|].
  exact (proj1 (description_always_ellipsis _ (string_repeat 70 euro) H) Hne).
Defined.

(** Seventy characters of three bytes come back whole, and of 201 such
    characters the first 200 are kept, each with its three bytes. *)
Example description_of_multibyte :
  description_of (<["description" := PStr (string_repeat 70 euro)]> ∅)
  = Ok (string_repeat 70 euro +:+ "...")
  ∧ description_of (<["description" := PStr (string_repeat 201 euro)]> ∅)
    = Ok (string_repeat 200 euro +:+ "...").
Proof. split; vm_compute; reflexivity. Qed.

(** C8, as stated, fails: [get_video_info] wraps what the engine raised
    in a new exception whose text starts with a phrase of its own, and that
    text is the detail of the 400 response. *)
Lemma engine_text_is_prefixed :
  supported_url "https://youtu.be/x"
  ∧ get_video_preview unavailable_engine Ok (λ _ detail, detail) "https://youtu.be/x"
    = HTTPException 400 "Error extracting video info: Video unavailable"
  ∧ ¬ raw_text_propagated unavailable_engine Ok (λ _ detail, detail)
        "https://youtu.be/x".
Proof.
  split; [split; [discriminate|by right]|]. split; [reflexivity|].
  intros H. specialize (H (Exception "Video unavailable") eq_refl).
  discriminate H.
Qed.

(** C8, amended.  When the engine fails on a supported URL the response
    is a 400 whose detail is the engine's error text behind the prefix
    "Error extracting video info: "; nothing else of the text is changed. *)
Theorem engine_failure_detail (extract_info : string → result Info)
    (VideoInfo : video_info → result video_info)
    (str_HTTPException : Z → string → string) (url : string) (e : exn) :
  supported_url url →
  extract_info url = Raise e →
  get_video_info extract_info url
    = Raise (Exception ("Error extracting video info: " +:+ str_exn e))
  ∧ get_video_preview extract_info VideoInfo str_HTTPException url
    = HTTPException 400 ("Error extracting video info: " +:+ str_exn e).
Proof.
  intros [Hne Hdom] He.
  assert (get_video_info extract_info url
          = Raise (Exception ("Error extracting video info: " +:+ str_exn e))) as Hinfo.
  { unfold get_video_info, get_video_info_body. by rewrite He. }
  split; [exact Hinfo|].
  unfold get_video_preview. rewrite Hinfo.
  apply String.eqb_neq in Hne as ->.
  by destruct Hdom as [-> | ->]; rewrite ?andb_false_r.
Qed.

Lemma engine_failure_detail_witness :
  supported_url "https://youtu.be/x"
  ∧ unavailable_engine "https://youtu.be/x" = Raise (Exception "Video unavailable")
  ∧ get_video_preview unavailable_engine Ok (λ _ detail, detail) "https://youtu.be/x"
    = HTTPException 400
        ("Error extracting video info: " +:+ str_exn (Exception "Video unavailable")).
Proof.
  assert (supported_url "https://youtu.be/x") as Hu
    by (split; [discriminate|right; reflexivity]).
  split; [exact Hu|]. split; [reflexivity|].
  exact (proj2 (engine_failure_detail unavailable_engine Ok (λ _ detail, detail)
                  "https://youtu.be/x" (Exception "Video unavailable") Hu eq_refl)).
Defined.

(** ** Claims on failure inside the normaliser *)

Lemma format_filesize_total (v : PyVal) :
  (∀ s, v = PStr s → s = "") → ∃ r, _format_filesize v = Ok r.
Proof.
  intros Hv. destruct v as [|n|s]; unfold _format_filesize; simpl.
  - by eexists.
  - destruct (n =? 0); by eexists.
  - rewrite (Hv s eq_refl). by eexists.
Qed.

Lemma process_loop_total (formats : list Dict) :
  Forall well_typed formats →
  ∀ processed seen, ∃ out, process_loop formats processed seen = Ok out.
Proof.
  induction 1 as [|fmt rest [[h Hh] Hsize] _ IH]; intros processed seen.
  - by eexists.
  - rewrite process_loop_cons. destruct (usable fmt); [|apply IH].
    unfold label_of. rewrite Hh, create_quality_label_int.
    cbn [mbind result_bind]. case_bool_decide; [apply IH|].
    destruct (format_filesize_total _ Hsize) as [r ->].
    cbn [mbind result_bind]. apply IH.
Qed.

(** On raw formats whose height is an integer or absent, and whose size is
    not a non-empty string, the normaliser returns a list: absent fields
    are replaced by their defaults. *)
Lemma process_formats_total (formats : list Dict) :
  Forall well_typed formats → ∃ out, _process_formats formats = Ok out.
Proof.
  intros H. destruct (process_loop_total formats H [] ∅) as [processed Hp].
  rewrite process_formats_unfold, Hp. by eexists.
Qed.

(** C9 fails on the code.  A raw format with a locator and a video codec
    whose height is present and null reaches the first comparison of
    [_create_quality_label], which raises: the default of
    [fmt.get('height', 0)] replaces an absent key only.  [_process_formats]
    returns no list, and the preview request ends in a 400. *)
Theorem null_height_raises :
  usable null_height_format = true
  ∧ get_or null_height_format "height" (PInt 0) = PNone
  ∧ _process_formats [null_height_format]
    = Raise (TypeError "'>=' not supported between instances of 'NoneType' and 'int'")
  ∧ get_video_preview null_height_engine Ok (λ _ detail, detail) "https://youtu.be/x"
    = HTTPException 400
        "Error extracting video info: '>=' not supported between instances of 'NoneType' and 'int'".
Proof. by repeat split. Qed.

(** * Further properties of the normaliser *)

Lemma filter_unseen_seen (seen : gset string) (lbl : string) (l : list Dict) :
  lbl ∈ seen →
  filter (unseen seen) (filter (λ g, label_of g ≠ Ok lbl) l) = filter (unseen seen) l.
Proof.
  intros Hin. apply list_filter_filter_l.
  intros g Hg Heq. exact (Hg lbl Heq Hin).
Qed.

Lemma filter_unseen_add (seen : gset string) (lbl : string) (l : list Dict) :
  filter (unseen seen) (filter (λ g, label_of g ≠ Ok lbl) l)
  = filter (unseen ({[lbl]} ∪ seen)) l.
Proof.
  rewrite list_filter_filter. apply list_filter_iff.
  intros g. unfold unseen. split.
  - intros [Hg Hne] l' Hl'. rewrite elem_of_union, elem_of_singleton.
    intros [->|Hin]; [by apply Hne|by apply (Hg l')].
  - intros Hg. split.
    + intros l' Hl' Hin. apply (Hg l' Hl'). set_solver.
    + intros Heq. apply (Hg lbl Heq). set_solver.
Qed.

Lemma format_filesize_Ok (v : PyVal) (r : string) :
  _format_filesize v = Ok r → ∀ s, v = PStr s → s = "".
Proof.
  intros Hr s ->. unfold _format_filesize in Hr. simpl in Hr.
  destruct (String.eqb_spec s ""); [done|discriminate].
Qed.

Lemma process_loop_skip_unusable (pre post : list Dict) (fmt : Dict) :
  usable fmt = false →
  ∀ processed seen,
    process_loop (pre ++ fmt :: post) processed seen
    = process_loop (pre ++ post) processed seen.
Proof.
  intros Hu. induction pre as [|a pre IH]; intros processed seen.
  - simpl app. by rewrite process_loop_cons, Hu.
  - rewrite <- !app_comm_cons, !process_loop_cons.
    destruct (usable a); [|apply IH].
    destruct (label_of a) as [la|e]; [|done]. cbn [mbind result_bind].
    case_bool_decide; [apply IH|].
    destruct (_format_filesize (size_of a)) as [sa|e]; [|done].
    cbn [mbind result_bind]. apply IH.
Qed.

(** X1. A raw format stopped by one of the guards has no effect at all:
    removing it from the input leaves the result unchanged, error or list.
    Its other fields are never looked at, so an audio-only format with a
    null height cannot make the normaliser fail. *)
Theorem unusable_format_transparent (pre post : list Dict) (fmt : Dict) :
  usable fmt = false →
  _process_formats (pre ++ fmt :: post) = _process_formats (pre ++ post).
Proof.
  intros Hu. by rewrite !process_formats_unfold, process_loop_skip_unusable.
Qed.

Lemma unusable_format_transparent_witness :
  usable audio_only_format = false
  ∧ _process_formats (two_1080p ++ audio_only_format :: sample_formats)
    = _process_formats (two_1080p ++ sample_formats).
Proof.
  assert (usable audio_only_format = false) as H by reflexivity.
  split; [exact H|].
  exact (unusable_format_transparent two_1080p sample_formats audio_only_format H).
Defined.

Lemma process_loop_skip_duplicate (post : list Dict) (g : Dict) (lbl : string) :
  usable g = true → label_of g = Ok lbl →
  ∀ pre processed seen,
    lbl ∈ seen ∨ (∃ f, f ∈ pre ∧ usable f = true ∧ label_of f = Ok lbl) →
    process_loop (pre ++ g :: post) processed seen
    = process_loop (pre ++ post) processed seen.
Proof.
  intros Hu Hl. induction pre as [|a pre IH]; intros processed seen Hseen.
  - destruct Hseen as [Hin|(f & Hf & _)]; [|by apply elem_of_nil in Hf].
    simpl app. rewrite process_loop_cons, Hu, Hl. cbn [mbind result_bind].
    by rewrite bool_decide_eq_true_2.
  - rewrite <- !app_comm_cons, !process_loop_cons.
    destruct (usable a) eqn:Hua.
    + destruct (label_of a) as [la|e] eqn:Hla; [|done]. cbn [mbind result_bind].
      case_bool_decide as Hin.
      * apply IH. destruct Hseen as [?|(f & [->|Hf]%elem_of_cons & Hfu & Hfl)];
          [by left| |right; eauto].
        left. congruence.
      * destruct (_format_filesize (size_of a)) as [sa|e]; [|done].
        cbn [mbind result_bind]. apply IH.
        destruct Hseen as [?|(f & [->|Hf]%elem_of_cons & Hfu & Hfl)];
          [left; set_solver| |right; eauto].
        left. assert (la = lbl) as -> by congruence. set_solver.
    + apply IH. destruct Hseen as [?|(f & [->|Hf]%elem_of_cons & Hfu & Hfl)];
        [by left|congruence|right; eauto].
Qed.

(** X2. A usable format whose label is already produced by an earlier
    usable format has no effect either: removing it leaves the result
    unchanged.  Its size is never formatted, so a malformed size in a
    duplicate cannot make the normaliser fail. *)
Theorem duplicate_label_transparent (pre post : list Dict) (f g : Dict) (lbl : string) :
  f ∈ pre → usable f = true → label_of f = Ok lbl →
  usable g = true → label_of g = Ok lbl →
  _process_formats (pre ++ g :: post) = _process_formats (pre ++ post).
Proof.
  intros Hf Hfu Hfl Hgu Hgl. rewrite !process_formats_unfold.
  rewrite (process_loop_skip_duplicate post g lbl Hgu Hgl); [done|].
  right. eauto.
Qed.

Lemma duplicate_label_transparent_witness :
  usable string_size_format = true
  ∧ label_of string_size_format = Ok "1080p"
  ∧ _process_formats [string_size_format]
    = Raise (TypeError "'<' not supported between instances of 'str' and 'float'")
  ∧ _process_formats (two_1080p ++ string_size_format :: sample_formats)
    = _process_formats (two_1080p ++ sample_formats).
Proof.
  split; [reflexivity|]. split; [reflexivity|]. split; [reflexivity|].
  refine (duplicate_label_transparent two_1080p sample_formats
            (raw_format "https://cdn/a" "137" "avc1" 1080 100)
            string_size_format "1080p" _ eq_refl eq_refl eq_refl eq_refl).
  apply list_elem_of_here.
Defined.

Lemma process_loop_Ok_iff (formats : list Dict) :
  ∀ processed seen,
    (∃ out, process_loop formats processed seen = Ok out)
    ↔ Forall well_typed (filter (unseen seen) (kept_formats formats)).
Proof.
  induction formats as [|fmt rest IH]; intros processed seen.
  - simpl. split; [constructor|by eexists].
  - rewrite process_loop_cons, kept_formats_cons.
    destruct (usable fmt); [|apply IH].
    destruct (label_of fmt) as [lbl|e] eqn:Hlbl; cbn [mbind result_bind].
    + pose proof Hlbl as Hh. unfold label_of in Hh.
      apply create_quality_label_Ok in Hh as (h & Hh & _).
      case_bool_decide as Hseen.
      * rewrite IH, filter_cons_False, filter_unseen_seen; [done..|].
        intros Hu. exact (Hu lbl Hlbl Hseen).
      * rewrite filter_cons_True, filter_unseen_add, Forall_cons.
        2:{ intros l Hl. rewrite Hlbl in Hl. by injection Hl as <-. }
        destruct (_format_filesize (size_of fmt)) as [r|e] eqn:Hsize;
          cbn [mbind result_bind].
        -- rewrite IH. split; [|tauto]. intros HF. split; [|done].
           split; [eauto|]. by eapply format_filesize_Ok.
        -- split; [by intros [? ?]|]. intros [[_ Hwt] _].
           destruct (format_filesize_total _ Hwt) as [r Hr]. congruence.
    + rewrite filter_cons_True by (intros l Hl; congruence).
      rewrite Forall_cons. split; [by intros [? ?]|].
      intros [[[h Hh] _] _]. unfold label_of in Hlbl.
      by rewrite Hh, create_quality_label_int in Hlbl.
Qed.

Lemma process_formats_Ok_loop (formats : list Dict) :
  (∃ out, _process_formats formats = Ok out)
  ↔ ∃ processed, process_loop formats [] ∅ = Ok processed.
Proof.
  rewrite process_formats_unfold. split; intros [out Hout].
  - destruct (process_loop formats [] ∅) as [l|e]; [by eexists|discriminate].
  - rewrite Hout. by eexists.
Qed.

Lemma exact_size_well_typed (fmt : Dict) :
  small_int (get_or fmt "height" (PInt 0)) → exact_size (size_of fmt) → well_typed fmt.
Proof.
  intros (h & Hh & _) Hs. split; [by exists h|].
  intros s Heq. by rewrite Heq in Hs.
Qed.

(** X3. When the normaliser returns a list, no format it kept (usable,
    first of its label) has a null or string height, nor a non-empty string
    as the size to format.  Conversely it returns a list whenever every
    format it keeps has an absent height or an integer one below 2^53 in
    absolute value, and a size to format that is null, absent, the empty
    string or such an integer.  The fields of formats that are filtered out
    or deduplicated never matter. *)
Theorem process_formats_returns (formats : list Dict) :
  ((∃ out, _process_formats formats = Ok out) →
   ∀ fmt, fmt ∈ kept_formats formats →
     get_or fmt "height" (PInt 0) ≠ PNone
     ∧ (∀ s, get_or fmt "height" (PInt 0) ≠ PStr s)
     ∧ (∀ s, size_of fmt = PStr s → s = ""))
  ∧ ((∀ fmt, fmt ∈ kept_formats formats →
        small_int (get_or fmt "height" (PInt 0)) ∧ exact_size (size_of fmt)) →
     ∃ out, _process_formats formats = Ok out).
Proof.
  rewrite process_formats_Ok_loop, (process_loop_Ok_iff formats [] ∅).
  rewrite filter_unseen_empty, Forall_forall. split.
  - intros Hwt fmt Hin. destruct (Hwt fmt Hin) as [[h Hh] Hs].
    rewrite Hh. by repeat split.
  - intros Hok fmt Hin. destruct (Hok fmt Hin) as [Hh Hs].
    by apply exact_size_well_typed.
Qed.

Lemma process_formats_returns_witness :
  (∀ fmt, fmt ∈ kept_formats (audio_only_format :: two_1080p ++ [string_size_format]) →
     small_int (get_or fmt "height" (PInt 0)) ∧ exact_size (size_of fmt))
  ∧ ¬ Forall well_typed (audio_only_format :: two_1080p ++ [string_size_format])
  ∧ ∃ out, _process_formats (audio_only_format :: two_1080p ++ [string_size_format])
           = Ok out.
Proof.
  assert (∀ fmt,
            fmt ∈ kept_formats (audio_only_format :: two_1080p ++ [string_size_format]) →
            small_int (get_or fmt "height" (PInt 0)) ∧ exact_size (size_of fmt)) as H.
  { unfold two_1080p. simpl app. rewrite !kept_formats_cons. simpl.
    repeat (rewrite filter_cons_False by (simpl; intros Hne; by apply Hne)).
    rewrite ?filter_nil. intros fmt ->%list_elem_of_singleton.
    split; [exists 1080; by repeat split|]. vm_compute. split; reflexivity. }
  split; [exact H|]. split.
  - intros [[[h Hh] _] _]%Forall_cons. discriminate Hh.
  - exact (proj2 (process_formats_returns _) H).
Defined.

(** X4. An output list is empty or has at least two entries, never exactly
    one: it has one entry more than there are kept formats, and no more
    than one more than there are raw formats. *)
Theorem output_length (formats out : list Dict) :
  _process_formats formats = Ok out →
  (length out = 0 ∨ length out = S (length (kept_formats formats)))%nat
  ∧ (length out = 0 ↔ Forall (λ fmt, usable fmt = false) formats)%nat
  ∧ (length out ≠ 1)%nat
  ∧ (length out ≤ S (length formats))%nat.
Proof.
  intros (entries & HF & ->)%process_formats_spec.
  pose proof (Forall2_length _ _ _ HF) as Hlen.
  pose proof (Permutation_length (sort_desc_perm entries)) as Hsort.
  pose proof (sublist_length _ _ (kept_formats_sublist formats)) as Hsub.
  rewrite <- kept_formats_nil_iff.
  destruct (sort_desc entries) as [|second rest] eqn:Hs; simpl in *.
  - split; [by left|]. split; [|split; [done|lia]].
    split; [|done]. intros _. destruct entries; [|done].
    by apply Forall2_nil_inv_r in HF.
  - split; [right; lia|]. split; [|lia].
    split; [done|]. intros Hk. rewrite Hk in Hlen. simpl in Hlen. lia.
Qed.

Lemma output_length_witness :
  _process_formats sample_formats = Ok sample_out
  ∧ (length sample_out ≠ 1)%nat
  ∧ (length sample_out ≤ S (length sample_formats))%nat.
Proof.
  assert (_process_formats sample_formats = Ok sample_out) as H by reflexivity.
  split; [exact H|].
  destruct (output_length sample_formats sample_out H) as (_ & _ & H1 & H2).
  split; [exact H1|exact H2].
Defined.

Lemma process_formats_elem (formats out : list Dict) (e : Dict) :
  _process_formats formats = Ok out → e ∈ out →
  ∃ fmt real, fmt ∈ kept_formats formats ∧ builds fmt real ∧ real ∈ out
              ∧ (e = real ∨ e = highest_of real).
Proof.
  intros (entries & HF & ->)%process_formats_spec He.
  assert (∀ x, x ∈ sort_desc entries → x ∈ add_highest (sort_desc entries)) as Hin.
  { intros x Hx. destruct (sort_desc entries); [done|]. by apply list_elem_of_further. }
  apply elem_of_add_highest in He as [He|(first & Hfirst & ->)].
  - pose proof He as He'. rewrite sort_desc_perm in He'.
    destruct (Forall2_builds_elem_r _ _ _ HF He') as (fmt & Hfmt & Hb).
    exists fmt, e. eauto 6.
  - pose proof Hfirst as Hf'. rewrite sort_desc_perm in Hf'.
    destruct (Forall2_builds_elem_r _ _ _ HF Hf') as (fmt & Hfmt & Hb).
    exists fmt, first. eauto 6.
Qed.

Lemma entry_of_dom (fmt : Dict) (lbl s : string) : dom (entry_of fmt lbl s) = entry_keys.
Proof.
  unfold entry_of, entry_keys. rewrite !dom_insert_L, dom_empty_L. set_solver.
Qed.

(** X5. Every entry of the output, the synthetic one included, has exactly
    the eleven keys format_id, quality, height, width, fps, filesize,
    filesize_formatted, vcodec, acodec, url and ext, whatever keys the raw
    format had. *)
Theorem output_entry_keys (formats out : list Dict) (e : Dict) :
  _process_formats formats = Ok out → e ∈ out → dom e = entry_keys.
Proof.
  intros Hout He.
  destruct (process_formats_elem _ _ _ Hout He)
    as (fmt & real & _ & (lbl & s & _ & _ & ->) & _ & [-> | ->]).
  - apply entry_of_dom.
  - unfold highest_of. rewrite !dom_insert_L, entry_of_dom.
    unfold entry_keys. set_solver.
Qed.

Lemma output_entry_keys_witness :
  _process_formats sample_formats = Ok sample_out
  ∧ Forall (λ e, dom e = entry_keys) sample_out.
Proof.
  assert (_process_formats sample_formats = Ok sample_out) as H by reflexivity.
  split; [exact H|].
  apply Forall_forall. intros e He.
  exact (output_entry_keys sample_formats sample_out e H He).
Defined.

Lemma highest_of_lookup_ne (first : Dict) (k : string) :
  k ≠ "quality" → k ≠ "format_id" → highest_of first !! k = first !! k.
Proof. intros Hq Hf. unfold highest_of. by rewrite !lookup_insert_ne. Qed.

(** X6. The synthetic entry does carry the greatest height: the first
    entry of a non-empty output has an integer height, and every entry of
    the output has an integer height that is not larger. *)
Theorem first_entry_height_max (formats out rest : list Dict) (first : Dict) :
  _process_formats formats = Ok out →
  out = first :: rest →
  ∃ hmax, first !! "height" = Some (PInt hmax)
          ∧ ∀ e, e ∈ out → ∃ h, e !! "height" = Some (PInt h) ∧ h ≤ hmax.
Proof.
  intros (entries & HF & ->)%process_formats_spec Hout.
  pose proof (sort_desc_sorted entries) as Hsorted.
  assert (Forall (λ e, e !! "height" = Some (PInt (height_key e)))
            (sort_desc entries)) as Hint.
  { rewrite sort_desc_perm. by eapply Forall2_builds_height. }
  destruct (sort_desc entries) as [|second tail]; [done|].
  unfold add_highest in Hout. injection Hout as <- <-.
  apply StronglySorted_inv in Hsorted as [_ Hmax].
  apply Forall_cons in Hint as [Hsecond Htail].
  exists (height_key second). split.
  { by rewrite highest_of_lookup_ne. }
  intros e [->|[->|He]%elem_of_cons]%elem_of_cons.
  - exists (height_key second). by rewrite highest_of_lookup_ne.
  - by exists (height_key second).
  - exists (height_key e). split.
    + by apply (proj1 (Forall_forall _ _) Htail).
    + by apply (proj1 (Forall_forall _ _) Hmax).
Qed.

Lemma first_entry_height_max_witness :
  _process_formats sample_formats = Ok sample_out
  ∧ ∃ first rest hmax,
      sample_out = first :: rest
      ∧ first !! "height" = Some (PInt hmax)
      ∧ ∀ e, e ∈ sample_out → ∃ h, e !! "height" = Some (PInt h) ∧ h ≤ hmax.
Proof.
  assert (_process_formats sample_formats = Ok sample_out) as H by reflexivity.
  split; [exact H|].
  destruct sample_out as [|first rest] eqn:Hs; [discriminate Hs|].
  destruct (first_entry_height_max sample_formats (first :: rest) rest first H eq_refl)
    as (hmax & Hfirst & Hall).
  exists first, rest, hmax. split; [reflexivity|]. split; [exact Hfirst|exact Hall].
Defined.

(** X7. The derived fields of an entry agree with the fields they are
    derived from: in every entry the formatted size is the rendering of the
    size stored beside it, and in every entry but the synthetic one the
    quality is the label of the stored height. *)
Theorem output_entry_consistent (formats out : list Dict) (e : Dict) :
  _process_formats formats = Ok out → e ∈ out →
  (∃ size text, e !! "filesize" = Some size
                ∧ _format_filesize size = Ok text
                ∧ e !! "filesize_formatted" = Some (PStr text))
  ∧ (quality e ≠ Some (PStr "Highest Available") →
     ∃ lbl, _create_quality_label (get e "height") (get e "width") (get e "fps") = Ok lbl
            ∧ quality e = Some (PStr lbl)).
Proof.
  intros Hout He.
  destruct (process_formats_elem _ _ _ Hout He)
    as (fmt & real & _ & (lbl & s & Hlbl & Hs & ->) & _ & [-> | ->]).
  - split.
    + exists (size_of fmt), s. by repeat split.
    + intros _. exists lbl. by split.
  - split.
    + exists (size_of fmt), s. rewrite !highest_of_lookup_ne by done.
      by repeat split.
    + intros Hq. by rewrite highest_of_quality in Hq.
Qed.

Lemma output_entry_consistent_witness :
  _process_formats sample_formats = Ok sample_out
  ∧ Forall (λ e, ∃ size text, e !! "filesize" = Some size
                              ∧ _format_filesize size = Ok text
                              ∧ e !! "filesize_formatted" = Some (PStr text))
      sample_out.
Proof.
  assert (_process_formats sample_formats = Ok sample_out) as H by reflexivity.
  split; [exact H|].
  apply Forall_forall. intros e He.
  exact (proj1 (output_entry_consistent sample_formats sample_out e H He)).
Defined.

(** ** The labels offered do not depend on the order of the input *)

Ltac split_heights :=
  repeat match goal with
         | |- context [?n <=? ?h] => destruct (Z.leb_spec n h)
         | H : context [?n <=? ?h] |- _ => destruct (Z.leb_spec n h)
         end.

Lemma label_of_height_repr (h : Z) :
  label_of_height h = pretty (label_num h) +:+ String (label_suffix h) EmptyString.
Proof.
  unfold label_of_height, label_num, label_suffix.
  split_heights; try reflexivity; lia.
Qed.

Lemma label_of_height_eq (h1 h2 : Z) :
  label_of_height h1 = label_of_height h2
  ↔ label_num h1 = label_num h2 ∧ label_suffix h1 = label_suffix h2.
Proof.
  rewrite !label_of_height_repr. split.
  - intros Heq. assert (label_suffix h1 = label_suffix h2) as Hs.
    { apply (f_equal last_char) in Heq. rewrite !last_char_app in Heq. congruence. }
    split; [|done]. rewrite Hs in Heq.
    apply append_char_inj in Heq. by apply (inj pretty) in Heq.
  - by intros [-> ->].
Qed.

Lemma label_rank_eq (h1 h2 : Z) :
  label_of_height h1 = label_of_height h2 ↔ label_rank h1 = label_rank h2.
Proof.
  rewrite label_of_height_eq. unfold label_rank, label_suffix, label_num.
  pose proof (Z.div_mod h1 1000 ltac:(lia)).
  pose proof (Z.mod_pos_bound h1 1000 ltac:(lia)).
  pose proof (Z.div_mod h2 1000 ltac:(lia)).
  pose proof (Z.mod_pos_bound h2 1000 ltac:(lia)).
  split_heights; (split; [intros [Hn Hs]; try discriminate Hs; lia
                         |intros Hr; split; [lia|try reflexivity; lia]]).
Qed.

Lemma label_rank_mono (h1 h2 : Z) : h1 ≤ h2 → label_rank h1 ≤ label_rank h2.
Proof.
  intros Hle. unfold label_rank, label_num.
  pose proof (Z.div_mod h1 1000 ltac:(lia)).
  pose proof (Z.mod_pos_bound h1 1000 ltac:(lia)).
  pose proof (Z.div_mod h2 1000 ltac:(lia)).
  pose proof (Z.mod_pos_bound h2 1000 ltac:(lia)).
  split_heights; lia.
Qed.

Lemma builds_quality_rank (fmt e : Dict) :
  builds fmt e → quality e = Some (PStr (label_of_height (height_key e))).
Proof.
  intros Hb. pose proof (builds_height_key _ _ Hb) as Hk.
  apply builds_lookup in Hb as (h & _ & _ & Hq & Hh & _). congruence.
Qed.

Lemma NoDup_fmap_coarser {A B C} (f : A → B) (g : A → C) (l : list A) :
  (∀ x y, x ∈ l → y ∈ l → f x = f y → g x = g y) →
  NoDup (g <$> l) → NoDup (f <$> l).
Proof.
  induction l as [|a l IH]; intros Hfg; [constructor|].
  rewrite !fmap_cons, !NoDup_cons. intros [Hnin Hnd]. split.
  - intros (y & Heq & Hy)%list_elem_of_fmap. apply Hnin.
    apply list_elem_of_fmap. exists y. split; [|done].
    apply Hfg; [apply list_elem_of_here|by apply list_elem_of_further|done].
  - apply IH; [|done]. intros x y Hx Hy. apply Hfg; by apply list_elem_of_further.
Qed.

Lemma StronglySorted_fmap_strict {A} (R : A → A → Prop) (f : A → Z) (l : list A) :
  (∀ a b, R a b → f b ≤ f a) →
  StronglySorted R l → NoDup (f <$> l) →
  StronglySorted (λ x y : Z, y < x) (f <$> l).
Proof.
  intros HR. induction 1 as [|a l Hl IH Ha]; [constructor|].
  rewrite fmap_cons, NoDup_cons. intros [Hnin Hnd].
  constructor; [by apply IH|].
  apply Forall_fmap, Forall_forall. intros b Hb. simpl.
  assert (f b ≤ f a) by (apply HR; by apply (proj1 (Forall_forall _ _) Ha)).
  assert (f b ≠ f a); [|lia].
  intros Heq. apply Hnin. rewrite <- Heq. by apply list_elem_of_fmap_2.
Qed.

Lemma first_per_label_covers (l : list Dict) (fmt : Dict) :
  fmt ∈ l → ∃ g, g ∈ first_per_label l ∧ label_of g = label_of fmt.
Proof.
  induction l as [|a l IH]; [by intros ?%elem_of_nil|].
  intros [->|Hin]%elem_of_cons; simpl.
  - exists a. split; [apply list_elem_of_here|done].
  - destruct (IH Hin) as (g & Hg & Hgl).
    destruct (decide (label_of g = label_of a)) as [Heq|Hne].
    + exists a. split; [apply list_elem_of_here|congruence].
    + exists g. split; [|done].
      apply list_elem_of_further, list_elem_of_filter. by split.
Qed.

(** The ranks of the entries are those of the labels of the usable formats. *)
Lemma entry_rank_elem (formats entries : list Dict) (r : Z) :
  Forall2 builds (kept_formats formats) entries →
  r ∈ entry_rank <$> entries ↔
    ∃ fmt h, fmt ∈ formats ∧ usable fmt = true
             ∧ label_of fmt = Ok (label_of_height h) ∧ label_rank h = r.
Proof.
  intros HF. rewrite list_elem_of_fmap. split.
  - intros (e & -> & He).
    destruct (Forall2_builds_elem_r _ _ _ HF He) as (fmt & Hfmt & Hb).
    apply kept_formats_usable in Hfmt as [Hu Hin].
    pose proof (builds_height_key _ _ Hb) as Hk.
    apply builds_lookup in Hb as (h & _ & Hl & _ & Hh & _).
    exists fmt, h. repeat split; [done..|]. unfold entry_rank. congruence.
  - intros (fmt & h & Hin & Hu & Hl & <-).
    assert (fmt ∈ filter (λ f, usable f = true) formats) as Hf
      by (by apply list_elem_of_filter).
    apply first_per_label_covers in Hf as (g & Hg & Hgl).
    destruct (Forall2_builds_elem _ _ _ HF Hg) as (e & He & Hb).
    exists e. split; [|done]. unfold entry_rank.
    pose proof (builds_quality_rank _ _ Hb) as Hq.
    apply (builds_quality_label _ _ (label_of_height h)) in Hb.
    rewrite Hgl, Hl in Hb. rewrite (proj1 Hb eq_refl) in Hq.
    apply label_rank_eq. congruence.
Qed.

Lemma quality_fmap_add_highest (l : list Dict) :
  quality <$> add_highest l
  = match l with
    | [] => []
    | _ :: _ => Some (PStr "Highest Available") :: (quality <$> l)
    end.
Proof. destruct l; [done|]. simpl. by rewrite highest_of_quality. Qed.

Lemma quality_fmap_of_ranks (l1 l2 : list Dict) :
  Forall (λ e, quality e = Some (PStr (label_of_height (height_key e)))) l1 →
  Forall (λ e, quality e = Some (PStr (label_of_height (height_key e)))) l2 →
  entry_rank <$> l1 = entry_rank <$> l2 → quality <$> l1 = quality <$> l2.
Proof.
  intros H1. revert l2. induction H1 as [|a l1 Ha H1 IH]; intros [|b l2] H2; try done.
  apply Forall_cons in H2 as [Hb H2]. rewrite !fmap_cons. intros [= Hr Hrest].
  f_equal; [|by apply IH]. rewrite Ha, Hb. do 2 f_equal. by apply label_rank_eq.
Qed.

(** X8. The list of quality labels offered, in its order, does not depend
    on the order of the raw formats: two inputs that are permutations of
    each other and are both normalised give the same sequence of labels
    (the entries themselves may differ, deduplication keeping whichever
    format of a label comes first). *)
Theorem labels_permutation_invariant (formats formats' out out' : list Dict) :
  formats ≡ₚ formats' →
  _process_formats formats = Ok out →
  _process_formats formats' = Ok out' →
  quality <$> out = quality <$> out'.
Proof.
  intros Hperm (entries & HF & ->)%process_formats_spec
    (entries' & HF' & ->)%process_formats_spec.
  assert (∀ fs es, Forall2 builds (kept_formats fs) es →
            Forall (λ e, quality e = Some (PStr (label_of_height (height_key e))))
              (sort_desc es)
            ∧ NoDup (entry_rank <$> sort_desc es)
            ∧ StronglySorted (λ x y : Z, y < x) (entry_rank <$> sort_desc es)) as Hsorted.
  { intros fs es Hes.
    assert (Forall (λ e, quality e = Some (PStr (label_of_height (height_key e))))
              (sort_desc es)) as Hq.
    { rewrite sort_desc_perm. clear -Hes.
      induction Hes; constructor; eauto using builds_quality_rank. }
    assert (NoDup (entry_rank <$> sort_desc es)) as Hnd.
    { apply (NoDup_fmap_coarser _ quality).
      - intros x y Hx Hy Hr. rewrite Forall_forall in Hq.
        rewrite (Hq x Hx), (Hq y Hy). do 2 f_equal. by apply label_rank_eq.
      - rewrite sort_desc_perm. eapply Forall2_builds_NoDup; [exact Hes|].
        apply first_per_label_NoDup. }
    split; [done|]. split; [done|].
    apply (StronglySorted_fmap_strict desc_height); [|apply sort_desc_sorted|done].
    intros a b Hab. by apply label_rank_mono. }
  destruct (Hsorted _ _ HF) as (Hq & Hnd & Hs).
  destruct (Hsorted _ _ HF') as (Hq' & Hnd' & Hs').
  assert (entry_rank <$> sort_desc entries = entry_rank <$> sort_desc entries') as Hranks.
  { assert (AntiSymm (=) (λ x y : Z, y < x)) by (intros x y ? ?; lia).
    apply (StronglySorted_unique (λ x y : Z, y < x)); [done..|].
    apply NoDup_Permutation; [done..|].
    intros r. rewrite !sort_desc_perm.
    rewrite (entry_rank_elem formats), (entry_rank_elem formats') by done.
    split; intros (fmt & h & Hin & Hrest); exists fmt, h;
      (split; [|done]); [by rewrite <- Hperm|by rewrite Hperm]. }
  pose proof (quality_fmap_of_ranks _ _ Hq Hq' Hranks) as Hquality.
  rewrite !quality_fmap_add_highest.
  destruct (sort_desc entries), (sort_desc entries'); try done.
  by rewrite Hquality.
Qed.

Lemma labels_permutation_invariant_witness :
  sample_formats ≡ₚ reverse sample_formats
  ∧ _process_formats sample_formats = Ok sample_out
  ∧ _process_formats (reverse sample_formats) = Ok sample_rev_out
  ∧ quality <$> sample_out = quality <$> sample_rev_out.
Proof.
  assert (sample_formats ≡ₚ reverse sample_formats) as Hp
    by (symmetry; apply reverse_Permutation).
  assert (_process_formats sample_formats = Ok sample_out) as H by reflexivity.
  assert (_process_formats (reverse sample_formats) = Ok sample_rev_out) as H'
    by reflexivity.
  split; [exact Hp|]. split; [exact H|]. split; [exact H'|].
  exact (labels_permutation_invariant _ _ _ _ Hp H H').
Defined.

(** The entries behind equal labels do differ between the two orders. *)
Example sample_rev_out_view :
  (λ e : Dict, (e !! "quality", e !! "format_id", e !! "height")) <$> sample_rev_out
  = [(Some (PStr "Highest Available"), Some (PStr "best"), Some (PInt 4320));
     (Some (PStr "4K"), Some (PStr "571"), Some (PInt 4320));
     (Some (PStr "1080p"), Some (PStr "299"), Some (PInt 1080));
     (Some (PStr "480p"), Some (PStr "244"), Some (PInt 480));
     (Some (PStr "360p"), Some (PStr "18"), Some (PInt 360))].
Proof. reflexivity. Qed.

(** * Formatting of durations and sizes *)

Lemma string_length_app (a b : string) :
  String.length (a +:+ b) = (String.length a + String.length b)%nat.
Proof. induction a as [|c a IH]; simpl; [done|by f_equal]. Qed.

Lemma string_app_cons (x : ascii) (a b : string) :
  String x a +:+ b = String x (a +:+ b).
Proof. reflexivity. Qed.

Lemma string_app_assoc (a b c : string) : (a +:+ b) +:+ c = a +:+ (b +:+ c).
Proof.
  induction a as [|x a IH]; [done|]. rewrite !string_app_cons. by f_equal.
Qed.

Lemma string_app_inj_tail (a b t u : string) :
  a +:+ t = b +:+ u → String.length t = String.length u → a = b ∧ t = u.
Proof.
  revert b. induction a as [|c a IH]; intros [|d b] Heq Hlen.
  - done.
  - apply (f_equal String.length) in Heq.
    rewrite string_app_cons in Heq. change ("" +:+ t) with t in Heq.
    cbn [String.length] in Heq. rewrite string_length_app in Heq. lia.
  - apply (f_equal String.length) in Heq.
    rewrite string_app_cons in Heq. change ("" +:+ u) with u in Heq.
    cbn [String.length] in Heq. rewrite string_length_app in Heq. lia.
  - rewrite !string_app_cons in Heq. injection Heq as -> Heq.
    destruct (IH b Heq Hlen) as [-> ->]. done.
Qed.

Lemma two_digit_facts :
  Forall (λ n, String.length (format_02d n) = 2%nat
               ∧ (String.length (pretty n) ≤ 2)%nat
               ∧ Forall (λ m, format_02d n = format_02d m → n = m) (seqZ 0 60))
    (seqZ 0 60).
Proof. apply (bool_decide_unpack _). vm_compute. exact I. Qed.

Lemma format_02d_length (n : Z) : 0 ≤ n < 60 → String.length (format_02d n) = 2%nat.
Proof.
  intros Hn. pose proof two_digit_facts as H. rewrite Forall_forall in H.
  apply (H n). apply elem_of_seqZ. lia.
Qed.

Lemma pretty_length_60 (n : Z) : 0 ≤ n < 60 → (String.length (pretty n) ≤ 2)%nat.
Proof.
  intros Hn. pose proof two_digit_facts as H. rewrite Forall_forall in H.
  apply (H n). apply elem_of_seqZ. lia.
Qed.

Lemma format_02d_inj (n m : Z) :
  0 ≤ n < 60 → 0 ≤ m < 60 → format_02d n = format_02d m → n = m.
Proof.
  intros Hn Hm. pose proof two_digit_facts as H. rewrite Forall_forall in H.
  destruct (H n) as (_ & _ & Hinj); [apply elem_of_seqZ; lia|].
  rewrite Forall_forall in Hinj. apply Hinj. apply elem_of_seqZ. lia.
Qed.

Lemma clock_bounds (s : Z) :
  0 ≤ (s `mod` 3600) / 60 < 60 ∧ 0 ≤ s `mod` 60 < 60
  ∧ s = 3600 * (s / 3600) + 60 * ((s `mod` 3600) / 60) + s `mod` 60.
Proof.
  pose proof (Z.div_mod s 3600 ltac:(lia)).
  pose proof (Z.mod_pos_bound s 3600 ltac:(lia)).
  pose proof (Z.div_mod (s `mod` 3600) 60 ltac:(lia)).
  pose proof (Z.mod_pos_bound (s `mod` 3600) 60 ltac:(lia)).
  pose proof (Z.div_mod s 60 ltac:(lia)).
  pose proof (Z.mod_pos_bound s 60 ltac:(lia)).
  lia.
Qed.

Lemma string_app_nil_l (a : string) : "" +:+ a = a.
Proof. reflexivity. Qed.

Ltac string_len :=
  repeat (rewrite string_app_cons || rewrite string_app_nil_l
          || rewrite string_length_app || (progress (cbn [String.length])));
  lia.

(** X9. Distinct positive durations are displayed differently: on positive
    numbers of seconds the duration format is injective. *)
Theorem format_duration_injective (s1 s2 : Z) :
  0 < s1 → 0 < s2 →
  _format_duration (PInt s1) = _format_duration (PInt s2) → s1 = s2.
Proof.
  intros H1 H2. unfold _format_duration. simpl.
  destruct (Z.eqb_spec s1 0) as [|_]; [lia|].
  destruct (Z.eqb_spec s2 0) as [|_]; [lia|]. simpl.
  destruct (clock_bounds s1) as (Hm1 & Hs1 & Hd1).
  destruct (clock_bounds s2) as (Hm2 & Hs2 & Hd2).
  pose proof (format_02d_length _ Hm1) as Lm1.
  pose proof (format_02d_length _ Hs1) as Ls1.
  pose proof (format_02d_length _ Hm2) as Lm2.
  pose proof (format_02d_length _ Hs2) as Ls2.
  assert (0 ≤ s1 / 3600) by (apply Z.div_pos; lia).
  assert (0 ≤ s2 / 3600) by (apply Z.div_pos; lia).
  destruct (Z.ltb_spec 0 (s1 / 3600)), (Z.ltb_spec 0 (s2 / 3600)); intros [= Heq].
  - apply string_app_inj_tail in Heq as [Hh Heq]; [|string_len].
    apply (inj pretty) in Hh. apply (inj (String.append ":")) in Heq.
    apply string_app_inj_tail in Heq as [Hm Heq]; [|string_len].
    apply (inj (String.append ":")) in Heq.
    apply format_02d_inj in Hm; [|done..]. apply format_02d_inj in Heq; [|done..].
    lia.
  - exfalso. rewrite <- (string_app_assoc _ ":" (_ +:+ _)) in Heq.
    rewrite <- (string_app_assoc _ (format_02d _) (_ +:+ _)) in Heq.
    apply string_app_inj_tail in Heq as [Heq _]; [|string_len].
    apply (f_equal String.length) in Heq.
    pose proof (pretty_length_60 _ Hm2). revert Heq. string_len.
  - exfalso. rewrite <- (string_app_assoc _ ":" (_ +:+ _)) in Heq.
    rewrite <- (string_app_assoc _ (format_02d _) (_ +:+ _)) in Heq.
    apply string_app_inj_tail in Heq as [Heq _]; [|string_len].
    apply (f_equal String.length) in Heq.
    pose proof (pretty_length_60 _ Hm1). revert Heq. string_len.
  - apply string_app_inj_tail in Heq as [Hm Heq]; [|string_len].
    apply (inj pretty) in Hm. apply (inj (String.append ":")) in Heq.
    apply format_02d_inj in Heq; [|done..]. lia.
Qed.

Lemma format_duration_injective_witness :
  0 < 3725 ∧ 0 < 3600 + 125
  ∧ _format_duration (PInt 3725) = _format_duration (PInt (3600 + 125))
  ∧ 3725 = 3600 + 125.
Proof.
  assert (0 < 3725) as H by lia.
  assert (0 < 3600 + 125) as H' by lia.
  assert (_format_duration (PInt 3725) = _format_duration (PInt (3600 + 125))) as He
    by reflexivity.
  split; [exact H|]. split; [exact H'|]. split; [exact He|].
  exact (format_duration_injective 3725 (3600 + 125) H H' He).
Defined.

(** X10. Hours are shown only when positive, so a negative duration is
    displayed as its remainder modulo one hour: [-1] second reads 59:59,
    the same as 3599 seconds. *)
Theorem format_duration_negative (s : Z) :
  s < 0 → s `mod` 3600 ≠ 0 →
  _format_duration (PInt s) = _format_duration (PInt (s `mod` 3600))
  ∧ _format_duration (PInt (-1)) = Ok "59:59".
Proof.
  intros Hs Hr. split; [|reflexivity].
  unfold _format_duration. simpl.
  destruct (Z.eqb_spec s 0) as [|_]; [lia|].
  destruct (Z.eqb_spec (s `mod` 3600) 0) as [|_]; [lia|]. simpl.
  pose proof (Z.mod_pos_bound s 3600 ltac:(lia)).
  assert (s / 3600 < 0) by (apply Z.div_lt_upper_bound; lia).
  assert (s `mod` 3600 / 3600 = 0) as -> by (apply Z.div_small; lia).
  destruct (Z.ltb_spec 0 (s / 3600)); [lia|]. simpl.
  rewrite Z.mod_mod by lia.
  replace ((s `mod` 3600) `mod` 60) with (s `mod` 60); [done|].
  pose proof (Z.div_mod s 3600 ltac:(lia)).
  pose proof (Z.div_mod s 60 ltac:(lia)).
  pose proof (Z.mod_pos_bound s 60 ltac:(lia)).
  pose proof (Z.div_mod (s `mod` 3600) 60 ltac:(lia)).
  pose proof (Z.mod_pos_bound (s `mod` 3600) 60 ltac:(lia)).
  lia.
Qed.

Lemma format_duration_negative_witness :
  -1 < 0 ∧ (-1) `mod` 3600 ≠ 0
  ∧ _format_duration (PInt (-1)) = _format_duration (PInt ((-1) `mod` 3600)).
Proof.
  assert (-1 < 0) as H by lia.
  assert ((-1) `mod` 3600 ≠ 0) as H' by discriminate.
  split; [exact H|]. split; [exact H'|].
  exact (proj1 (format_duration_negative (-1) H H')).
Defined.

(** X11. A size from 1 to 1023 bytes is displayed as that number with one
    zero decimal and the unit B; a null, zero or absent size as Unknown. *)
Theorem format_filesize_bytes (n : Z) :
  0 < n < 1024 →
  _format_filesize (PInt n) = Ok (pretty n +:+ ".0 B")
  ∧ _format_filesize (PInt 0) = Ok "Unknown"
  ∧ _format_filesize PNone = Ok "Unknown".
Proof.
  intros Hn. split; [|by split].
  unfold _format_filesize. simpl.
  destruct (Z.eqb_spec n 0) as [|_]; [lia|]. simpl.
  destruct (Z.ltb_spec n (1024 * 1)); [|lia].
  unfold format_1f, round_half_even.
  destruct (Z.ltb_spec n 0); [lia|].
  rewrite Z.abs_eq by lia. rewrite !Z.div_1_r, !Z.mod_1_r.
  change (2 * 0 <? 1) with true. cbv iota.
  rewrite (Z.mul_comm 10 n), Z.div_mul, Z.mod_mul by lia.
  rewrite string_app_nil_l, !string_app_assoc. reflexivity.
Qed.

Lemma format_filesize_bytes_witness :
  0 < 512 < 1024 ∧ _format_filesize (PInt 512) = Ok "512.0 B".
Proof.
  assert (0 < 512 < 1024) as H by lia.
  split; [exact H|].
  exact (proj1 (format_filesize_bytes 512 H)).
Defined.

(** * The preview service *)

Lemma format_duration_Ok_iff (v : PyVal) :
  (∃ r, _format_duration v = Ok r) ↔ ∀ s, v = PStr s → s = "".
Proof.
  unfold _format_duration. destruct v as [|n|s]; simpl.
  - split; [done|by eexists].
  - split; [done|]. intros _. destruct (n =? 0); simpl; [by eexists|].
    destruct (0 <? n / 3600); by eexists.
  - destruct (String.eqb_spec s "") as [->|Hne]; simpl.
    + split; [by intros _ ? [= <-]|by eexists].
    + split; [by intros [? ?]|]. intros H. by specialize (H s eq_refl).
Qed.

Lemma description_of_Ok_iff (d : Dict) :
  (∃ r, description_of d = Ok r)
  ↔ ∀ n, get_or d "description" (PStr "") = PInt n → n = 0.
Proof.
  unfold description_of. destruct (get_or d "description" (PStr "")) as [|n|s]; simpl.
  - split; [done|by eexists].
  - destruct (Z.eqb_spec n 0) as [->|Hne]; simpl.
    + split; [by intros _ ? [= <-]|by eexists].
    + split; [by intros [? ?]|]. intros H. by specialize (H n eq_refl).
  - split; [done|]. intros _. destruct (String.eqb s ""); by eexists.
Qed.

(** X12. Given the engine's metadata, with no formats key or a list under
    it: when [get_video_info] returns, no kept format has a null or string
    height or a non-empty string as size, the duration is not a non-empty
    string and the description is not a non-zero number.  Conversely it
    returns whenever the kept formats have absent heights or integer ones
    below 2^53 in absolute value and sizes that are null, absent, empty or
    such integers, the duration is absent, null, such an integer or the
    empty string, and the description is absent, null, a string or zero. *)
Theorem get_video_info_returns (extract_info : string → result Info)
    (url : string) (info : Info) :
  extract_info url = Ok info →
  ((∃ v, get_video_info extract_info url = Ok v) →
   (∀ fmt, fmt ∈ kept_formats (default [] (info_formats info)) →
      get_or fmt "height" (PInt 0) ≠ PNone
      ∧ (∀ s, get_or fmt "height" (PInt 0) ≠ PStr s)
      ∧ (∀ s, size_of fmt = PStr s → s = ""))
   ∧ (∀ s, get_or (info_fields info) "duration" (PInt 0) = PStr s → s = "")
   ∧ (∀ n, get_or (info_fields info) "description" (PStr "") = PInt n → n = 0))
  ∧ ((∀ fmt, fmt ∈ kept_formats (default [] (info_formats info)) →
        small_int (get_or fmt "height" (PInt 0)) ∧ exact_size (size_of fmt)) →
     (get_or (info_fields info) "duration" (PInt 0) = PNone
      ∨ small_int (get_or (info_fields info) "duration" (PInt 0))
      ∨ get_or (info_fields info) "duration" (PInt 0) = PStr "") →
     (get_or (info_fields info) "description" (PStr "") = PNone
      ∨ (∃ s, get_or (info_fields info) "description" (PStr "") = PStr s)
      ∨ get_or (info_fields info) "description" (PStr "") = PInt 0) →
     ∃ v, get_video_info extract_info url = Ok v).
Proof.
  intros He.
  assert ((∃ v, get_video_info extract_info url = Ok v)
          ↔ (∃ out, _process_formats (default [] (info_formats info)) = Ok out)
            ∧ (∃ r, _format_duration (get_or (info_fields info) "duration" (PInt 0))
                    = Ok r)
            ∧ (∃ r, description_of (info_fields info) = Ok r)) as Hsteps.
  { unfold get_video_info, get_video_info_body. rewrite He. cbn [mbind result_bind].
    destruct (_process_formats _) as [fs|e1]; cbn [mbind result_bind].
    2:{ split; [by intros [? ?]|by intros [[? ?] _]]. }
    destruct (_format_duration _) as [df|e2]; cbn [mbind result_bind].
    2:{ split; [by intros [? ?]|by intros (_ & [? ?] & _)]. }
    destruct (description_of _) as [ds|e3]; cbn [mbind result_bind].
    2:{ split; [by intros [? ?]|by intros (_ & _ & [? ?])]. }
    split; [intros _; repeat split; by eexists|by eexists]. }
  rewrite Hsteps, format_duration_Ok_iff, description_of_Ok_iff.
  rewrite process_formats_Ok_loop, (process_loop_Ok_iff _ [] ∅).
  rewrite filter_unseen_empty, Forall_forall. split.
  - intros (Hwt & Hdur & Hdesc). split; [|done].
    intros fmt Hin. destruct (Hwt fmt Hin) as [[h Hh] Hs].
    rewrite Hh. by repeat split.
  - intros Hok Hdur Hdesc. split; [|split].
    + intros fmt Hin. destruct (Hok fmt Hin) as [Hh Hs].
      by apply exact_size_well_typed.
    + intros s Hs. rewrite Hs in Hdur.
      destruct Hdur as [?|[(? & ? & _)|?]]; congruence.
    + intros n Hn. rewrite Hn in Hdesc.
      destruct Hdesc as [?|[[? ?]|?]]; congruence.
Qed.

Lemma get_video_info_returns_witness :
  sample_engine "https://youtu.be/x"
  = Ok {| info_fields :=
            <["title" := PStr "Clip"]>
            (<["duration" := PInt 125]>
            (<["description" := PStr "Hi"]> ∅));
          info_formats := Some sample_formats |}
  ∧ (∃ v, get_video_info sample_engine "https://youtu.be/x" = Ok v)
  ∧ ∀ fmt, fmt ∈ kept_formats sample_formats →
      get_or fmt "height" (PInt 0) ≠ PNone
      ∧ (∀ s, get_or fmt "height" (PInt 0) ≠ PStr s)
      ∧ (∀ s, size_of fmt = PStr s → s = "").
Proof.
  assert (∃ v, get_video_info sample_engine "https://youtu.be/x" = Ok v) as H
    by (eexists; reflexivity).
  split; [reflexivity|]. split; [exact H|].
  exact (proj1 (proj1 (get_video_info_returns sample_engine "https://youtu.be/x" _
                         eq_refl) H)).
Defined.

(** * The preview handler *)

Lemma url_check_iff (url : string) :
  String.eqb url ""
  || (negb (contains "youtube.com" url) && negb (contains "youtu.be" url)) = false
  ↔ supported_url url.
Proof.
  unfold supported_url.
  rewrite orb_false_iff, andb_false_iff, !negb_false_iff, String.eqb_neq. tauto.
Qed.

(** X14. The preview handler answers 200 or 400 and nothing else.  It
    answers 200 only for a supported URL on which the metadata step and the
    response model both succeed; a URL that is empty or contains neither
    youtube.com nor youtu.be is rejected with the same 400 whatever the
    engine would have said. *)
Theorem preview_responses (extract_info : string → result Info)
    (VideoInfo : video_info → result video_info)
    (str_HTTPException : Z → string → string) (url : string) :
  ((∃ body, get_video_preview extract_info VideoInfo str_HTTPException url
            = Response200 body)
   ∨ (∃ detail, get_video_preview extract_info VideoInfo str_HTTPException url
                = HTTPException 400 detail))
  ∧ (∀ body, get_video_preview extract_info VideoInfo str_HTTPException url
             = Response200 body →
       supported_url url
       ∧ ∃ v, get_video_info extract_info url = Ok v ∧ VideoInfo v = Ok body)
  ∧ (¬ supported_url url →
     get_video_preview extract_info VideoInfo str_HTTPException url
     = HTTPException 400 (str_HTTPException 400 "Invalid YouTube URL")).
Proof.
  unfold get_video_preview.
  destruct (String.eqb url "" || _) eqn:Hcheck.
  - assert (¬ supported_url url) as Hn.
    { intros Hs%url_check_iff. congruence. }
    split; [right; by eexists|]. split; [discriminate|done].
  - apply url_check_iff in Hcheck.
    destruct (get_video_info extract_info url) as [v|e].
    + destruct (VideoInfo v) as [body|e] eqn:Hv.
      * split; [left; by eexists|]. split; [|done].
        intros ? [= <-]. split; [done|]. by exists v.
      * split; [right; by eexists|]. split; [discriminate|done].
    + split; [right; by eexists|]. split; [discriminate|done].
Qed.

Lemma preview_responses_witness :
  ¬ supported_url "https://example.com/watch"
  ∧ get_video_preview sample_engine Ok (λ _ detail, detail) "https://example.com/watch"
    = HTTPException 400 "Invalid YouTube URL".
Proof.
  assert (¬ supported_url "https://example.com/watch") as H.
  { intros [_ [H|H]]; discriminate H. }
  split; [exact H|].
  exact (proj2 (proj2 (preview_responses sample_engine Ok (λ _ detail, detail)
                         "https://example.com/watch")) H).
Defined.

Lemma substring_skip (a s : string) (k : nat) :
  substring (String.length a) k (a +:+ s) = substring 0 k s.
Proof.
  induction a as [|c a IH]; [done|]. rewrite string_app_cons. exact IH.
Qed.

Lemma substring_prefix (needle s : string) :
  substring 0 (String.length needle) (needle +:+ s) = needle.
Proof.
  induction needle as [|c needle IH]; [by destruct s|].
  rewrite string_app_cons. simpl. by rewrite IH.
Qed.

Lemma contains_app (needle a b : string) :
  needle ≠ "" → contains needle (a +:+ needle +:+ b) = true.
Proof.
  intros Hne. unfold contains. apply bool_decide_eq_true.
  destruct (String.index 0 needle (a +:+ needle +:+ b)) as [i|] eqn:Hi; [by eexists|].
  exfalso.
  apply (index_correct3 0 (String.length a) needle _ Hi Hne); [lia|].
  by rewrite substring_skip, substring_prefix.
Qed.

(** X15. The URL check is a substring test: any text with youtube.com or
    youtu.be somewhere in it is taken for a supported URL, whatever stands
    before and after, and the request goes on to the engine. *)
Theorem url_check_is_substring (extract_info : string → result Info)
    (VideoInfo : video_info → result video_info)
    (str_HTTPException : Z → string → string) (before after domain : string) :
  domain = "youtube.com" ∨ domain = "youtu.be" →
  supported_url (before +:+ domain +:+ after)
  ∧ get_video_preview extract_info VideoInfo str_HTTPException
      (before +:+ domain +:+ after)
    = match get_video_info extract_info (before +:+ domain +:+ after) with
      | Raise e => HTTPException 400 (str_exn e)
      | Ok v => match VideoInfo v with
                | Ok body => Response200 body
                | Raise e => HTTPException 400 (str_exn e)
                end
      end.
Proof.
  intros Hd.
  assert (supported_url (before +:+ domain +:+ after)) as Hs.
  { split.
    - intros Heq. apply (f_equal String.length) in Heq.
      rewrite !string_length_app in Heq. destruct Hd as [-> | ->]; simpl in Heq; lia.
    - destruct Hd as [-> | ->]; [left|right]; by apply contains_app. }
  split; [done|]. unfold get_video_preview.
  by rewrite (proj2 (url_check_iff _) Hs).
Qed.

Lemma url_check_is_substring_witness :
  ("youtu.be" = "youtube.com" ∨ "youtu.be" = "youtu.be")
  ∧ supported_url ("ftp://example.org/?q=" +:+ "youtu.be" +:+ "&x=1")
  ∧ get_video_preview unavailable_engine Ok (λ _ detail, detail)
      ("ftp://example.org/?q=" +:+ "youtu.be" +:+ "&x=1")
    = HTTPException 400 "Error extracting video info: Video unavailable".
Proof.
  assert ("youtu.be" = "youtube.com" ∨ "youtu.be" = "youtu.be") as H
    by (right; reflexivity).
  split; [exact H|]. split.
  - exact (proj1 (url_check_is_substring unavailable_engine Ok (λ _ detail, detail)
                    "ftp://example.org/?q=" "&x=1" "youtu.be" H)).
  - etrans; [|reflexivity].
    exact (proj2 (url_check_is_substring unavailable_engine Ok (λ _ detail, detail)
                    "ftp://example.org/?q=" "&x=1" "youtu.be" H)).
Defined.

(** * The download service *)

Lemma rfind_slash_ge (p : string) : -1 ≤ rfind_slash p.
Proof.
  induction p as [|c p IH]; simpl; [lia|].
  destruct (Z.leb_spec 0 (rfind_slash p)); [lia|].
  destruct (Ascii.eqb c "/"); lia.
Qed.

Lemma rfind_slash_none (p : string) : rfind_slash p = -1 ↔ no_slash p.
Proof.
  unfold no_slash. induction p as [|c p IH]; simpl.
  - split; [by intros _ i|done].
  - pose proof (rfind_slash_ge p).
    destruct (Z.leb_spec 0 (rfind_slash p)).
    + split; [lia|]. intros Hget. exfalso.
      assert (rfind_slash p ≠ -1) as Hne by lia. apply Hne, (proj2 IH).
      intros i. apply (Hget (S i)).
    + assert (rfind_slash p = -1) as Hr' by lia.
      pose proof (proj1 IH Hr') as Hr.
      destruct (Ascii.eqb_spec c "/") as [->|Hc].
      * split; [lia|]. intros Hget. by specialize (Hget O).
      * split; [|done]. intros _ [|i]; simpl; [congruence|apply Hr].
Qed.

Lemma basename_cons (c : ascii) (p : string) :
  basename (String c p) =
    if 0 <=? rfind_slash p then basename p
    else if Ascii.eqb c "/" then p else String c p.
Proof.
  unfold basename. simpl rfind_slash. pose proof (rfind_slash_ge p).
  destruct (Z.leb_spec 0 (rfind_slash p)).
  - replace (Z.to_nat (rfind_slash p + 1 + 1)) with (S (Z.to_nat (rfind_slash p + 1)))
      by lia.
    reflexivity.
  - destruct (Ascii.eqb c "/"); reflexivity.
Qed.

Lemma rfind_slash_app (dir name : string) : 0 ≤ rfind_slash (dir +:+ "/" +:+ name).
Proof.
  induction dir as [|c dir IH].
  - rewrite string_app_nil_l, string_app_cons, string_app_nil_l. simpl.
    pose proof (rfind_slash_ge name).
    destruct (Z.leb_spec 0 (rfind_slash name)); simpl; lia.
  - rewrite string_app_cons. simpl.
    destruct (Z.leb_spec 0 (rfind_slash (dir +:+ "/" +:+ name))); lia.
Qed.

(** The base name of a path is what follows its last slash: it never
    contains a slash, a path without slash is its own base name, and
    the base name of a directory, a slash and a slash-free name is that
    name.  Joined to the download directory it gives downloads/ followed by
    the name. *)
Lemma basename_properties (p dir name : string) :
  no_slash (basename p)
  ∧ (no_slash p → basename p = p)
  ∧ (no_slash name → basename (dir +:+ "/" +:+ name) = name)
  ∧ path_join download_dir (basename p) = "downloads/" +:+ basename p.
Proof.
  assert (∀ q, no_slash (basename q)) as Hbase.
  { intros q. apply rfind_slash_none. induction q as [|c q IH]; [done|].
    rewrite basename_cons. pose proof (rfind_slash_ge q).
    destruct (Z.leb_spec 0 (rfind_slash q)); [done|].
    assert (rfind_slash q = -1) as Hq by lia.
    destruct (Ascii.eqb c "/") eqn:Hc; [done|]. simpl. rewrite Hq, Hc. done. }
  split; [apply Hbase|]. split; [|split].
  - intros Hp%rfind_slash_none. unfold basename. by rewrite Hp.
  - intros Hn%rfind_slash_none. induction dir as [|c dir IH].
    + rewrite string_app_nil_l, string_app_cons, string_app_nil_l, basename_cons, Hn.
      reflexivity.
    + rewrite string_app_cons, basename_cons.
      pose proof (rfind_slash_app dir name).
      destruct (Z.leb_spec 0 (rfind_slash (dir +:+ "/" +:+ name))); [done|lia].
  - unfold path_join, download_dir.
    assert (starts_with_slash (basename p) = false) as ->; [|reflexivity].
    specialize (Hbase p). destruct (basename p) as [|c b]; [done|]. simpl.
    destruct (Ascii.eqb_spec c "/") as [->|]; [|done].
    by specialize (Hbase O).
Qed.

Example basename_of_scratch_file :
  basename "/tmp/scratch/Clip.mp4" = "Clip.mp4"
  ∧ basename "Clip.mp4" = "Clip.mp4"
  ∧ basename "/tmp/scratch/" = "".
Proof. by repeat split. Qed.

Lemma download_video_body_Ok (TemporaryDirectory : result string)
    (ydl_download : string → string → string → result string)
    (path_exists : string → bool) (os_rename : string → string → result unit)
    (url quality : string) (format_id : option string) (final_path name : string) :
  download_video_body TemporaryDirectory ydl_download path_exists os_rename
    url quality format_id = Ok (final_path, name) →
  ∃ temp_dir file,
    TemporaryDirectory = Ok temp_dir
    ∧ ydl_download (path_join temp_dir "%(title)s.%(ext)s")
        (download_video_format quality format_id) url = Ok file
    ∧ path_exists file = true
    ∧ os_rename file final_path = Ok ()
    ∧ name = basename file
    ∧ no_slash name
    ∧ final_path = "downloads/" +:+ name.
Proof.
  unfold download_video_body.
  destruct TemporaryDirectory as [temp_dir|e]; [|discriminate].
  cbn [mbind result_bind].
  destruct (ydl_download _ _ url) as [file|e] eqn:Hfile; [|discriminate].
  cbn [mbind result_bind].
  destruct (path_exists file) eqn:Hexists; [|discriminate].
  destruct (os_rename file _) as [[]|e] eqn:Hrename; [|discriminate].
  cbn [mbind result_bind]. intros [= <- <-].
  destruct (basename_properties file "" "") as (Hns & _ & _ & Hjoin).
  exists temp_dir, file. rewrite <- Hjoin. by repeat split.
Qed.

(** X16. When [download_video] returns, the engine was run with the format
    expression chosen from the quality and the identifier and with an
    output template inside the scratch directory, the file it named
    existed and was renamed to the path returned; the name returned is the
    base name of that file, contains no slash, and the path returned is
    the name inside the download directory. *)
Theorem download_video_Ok (TemporaryDirectory : result string)
    (ydl_download : string → string → string → result string)
    (path_exists : string → bool) (os_rename : string → string → result unit)
    (url quality : string) (format_id : option string) (final_path name : string) :
  download_video TemporaryDirectory ydl_download path_exists os_rename
    url quality format_id = Ok (final_path, name) →
  ∃ temp_dir file,
    TemporaryDirectory = Ok temp_dir
    ∧ ydl_download (path_join temp_dir "%(title)s.%(ext)s")
        (download_video_format quality format_id) url = Ok file
    ∧ path_exists file = true
    ∧ os_rename file final_path = Ok ()
    ∧ name = basename file
    ∧ no_slash name
    ∧ final_path = "downloads/" +:+ name.
Proof.
  unfold download_video.
  destruct (download_video_body _ _ _ _ url quality format_id) as [r|e] eqn:Hbody;
    [|discriminate].
  intros [= ->]. by apply download_video_body_Ok in Hbody.
Qed.

Lemma download_video_Ok_witness :
  download_video (Ok "/tmp/scratch") sample_download (λ _, true) (λ _ _, Ok ())
    "https://youtu.be/x" "720p" (Some "22")
  = Ok ("downloads/Clip.mp4", "Clip.mp4")
  ∧ no_slash "Clip.mp4".
Proof.
  assert (download_video (Ok "/tmp/scratch") sample_download (λ _, true) (λ _ _, Ok ())
            "https://youtu.be/x" "720p" (Some "22")
          = Ok ("downloads/Clip.mp4", "Clip.mp4")) as H by reflexivity.
  split; [exact H|].
  destruct (download_video_Ok _ _ _ _ _ _ _ _ _ H) as (_ & _ & _ & _ & _ & _ & _ & Hns & _).
  exact Hns.
Defined.

(** X17. When [download_video] fails, the exception it raises is a plain
    Exception whose text is "Error downloading video: " followed by the text
    of what went wrong: the error of creating the scratch directory, the
    engine's error, the error of the rename, or, when the engine named a
    file that does not exist, "Download failed - file not found". *)
Theorem download_video_Raise (TemporaryDirectory : result string)
    (ydl_download : string → string → string → result string)
    (path_exists : string → bool) (os_rename : string → string → result unit)
    (url quality : string) (format_id : option string) (e : exn) :
  download_video TemporaryDirectory ydl_download path_exists os_rename
    url quality format_id = Raise e →
  ∃ inner, e = Exception ("Error downloading video: " +:+ inner)
    ∧ ((∃ e0, TemporaryDirectory = Raise e0 ∧ inner = str_exn e0)
       ∨ (∃ temp_dir, TemporaryDirectory = Ok temp_dir
          ∧ ((∃ e0, ydl_download (path_join temp_dir "%(title)s.%(ext)s")
                      (download_video_format quality format_id) url = Raise e0
                    ∧ inner = str_exn e0)
             ∨ (∃ file, ydl_download (path_join temp_dir "%(title)s.%(ext)s")
                          (download_video_format quality format_id) url = Ok file
                  ∧ ((path_exists file = false
                      ∧ inner = "Download failed - file not found")
                     ∨ (path_exists file = true
                        ∧ ∃ e0, os_rename file ("downloads/" +:+ basename file)
                                = Raise e0
                                ∧ inner = str_exn e0)))))).
Proof.
  unfold download_video, download_video_body.
  destruct TemporaryDirectory as [temp_dir|e0]; cbn [mbind result_bind].
  2:{ intros [= <-]. eexists. split; [done|]. left. by eexists. }
  destruct (ydl_download _ _ url) as [file|e0] eqn:Hfile; cbn [mbind result_bind].
  2:{ intros [= <-]. eexists. split; [done|]. right. exists temp_dir. split; [done|].
      left. by exists e0. }
  destruct (basename_properties file "" "") as (_ & _ & _ & Hjoin). rewrite Hjoin.
  destruct (path_exists file) eqn:Hexists.
  2:{ intros [= <-]. eexists. split; [done|]. right. exists temp_dir. split; [done|].
      right. exists file. split; [done|]. by left. }
  destruct (os_rename file _) as [[]|e0] eqn:Hrename; cbn [mbind result_bind];
    [discriminate|].
  intros [= <-]. eexists. split; [done|]. right. exists temp_dir. split; [done|].
  right. exists file. split; [done|]. right. split; [done|]. by exists e0.
Qed.

Lemma download_video_Raise_witness :
  download_video (Ok "/tmp/scratch") sample_download (λ _, false) (λ _ _, Ok ())
    "https://youtu.be/x" "720p" None
  = Raise (Exception "Error downloading video: Download failed - file not found")
  ∧ ∃ inner, Exception "Error downloading video: Download failed - file not found"
             = Exception ("Error downloading video: " +:+ inner).
Proof.
  assert (download_video (Ok "/tmp/scratch") sample_download (λ _, false) (λ _ _, Ok ())
            "https://youtu.be/x" "720p" None
          = Raise (Exception "Error downloading video: Download failed - file not found"))
    as H by reflexivity.
  split; [exact H|].
  destruct (download_video_Raise _ _ _ _ _ _ _ _ H) as (inner & Hinner & _).
  exists inner. exact Hinner.
Defined.

(** X18. The download handler answers 200 or 400 and nothing else.  The
    URL is checked before the quality, and both before anything is
    downloaded: an unsupported URL, and a supported URL with an empty
    quality, are rejected whatever the engine and the file system would
    do.  A 200 carries success, the message of success, a file name without
    slash and the download URL /downloads/ followed by that name. *)
Theorem download_responses (TemporaryDirectory : result string)
    (ydl_download : string → string → string → result string)
    (path_exists : string → bool) (os_rename : string → string → result unit)
    (str_HTTPException : Z → string → string)
    (url quality : string) (format_id : option string) :
  let response :=
    app_download_video TemporaryDirectory ydl_download path_exists os_rename
      str_HTTPException url quality format_id in
  ((∃ body, response = DownloadResponse200 body)
   ∨ (∃ detail, response = DownloadHTTPException 400 detail))
  ∧ (¬ supported_url url →
     response = DownloadHTTPException 400 (str_HTTPException 400 "Invalid YouTube URL"))
  ∧ (supported_url url → quality = "" →
     response
     = DownloadHTTPException 400 (str_HTTPException 400 "Quality selection required"))
  ∧ (∀ body, response = DownloadResponse200 body →
       supported_url url ∧ quality ≠ ""
       ∧ ∃ name, no_slash name
           ∧ body = {| success := true;
                       message := "Video downloaded successfully";
                       download_url := Some ("/downloads/" +:+ name);
                       filename := Some name |}
           ∧ download_video TemporaryDirectory ydl_download path_exists os_rename
               url quality format_id = Ok ("downloads/" +:+ name, name)).
Proof.
  intros response. subst response. unfold app_download_video.
  destruct (String.eqb url "" || _) eqn:Hcheck.
  { assert (¬ supported_url url) as Hn by (intros Hs%url_check_iff; congruence).
    split; [right; by eexists|]. by repeat split. }
  apply url_check_iff in Hcheck.
  destruct (String.eqb_spec quality "") as [->|Hq].
  { split; [right; by eexists|]. by repeat split. }
  destruct (download_video _ _ _ _ url quality format_id) as [[final_path name]|e] eqn:Hd.
  - assert (no_slash name ∧ final_path = "downloads/" +:+ name) as [Hns ->].
    { unfold download_video in Hd.
      destruct (download_video_body _ _ _ _ url quality format_id) as [r|e] eqn:Hbody;
        [|discriminate].
      injection Hd as ->.
      by apply download_video_body_Ok in Hbody as (_ & _ & _ & _ & _ & _ & _ & ? & ?). }
    split; [left; by eexists|]. split; [done|]. split; [done|].
    intros ? [= <-]. split; [done|]. split; [done|]. by exists name.
  - split; [right; by eexists|]. by repeat split.
Qed.

Lemma download_responses_witness :
  supported_url "https://youtu.be/x"
  ∧ app_download_video (Ok "/tmp/scratch") sample_download (λ _, true) (λ _ _, Ok ())
      (λ _ detail, detail) "https://youtu.be/x" "" None
    = DownloadHTTPException 400 "Quality selection required".
Proof.
  assert (supported_url "https://youtu.be/x") as H
    by (split; [discriminate|right; reflexivity]).
  split; [exact H|].
  exact (proj1 (proj2 (proj2 (download_responses (Ok "/tmp/scratch") sample_download
           (λ _, true) (λ _ _, Ok ()) (λ _ detail, detail)
           "https://youtu.be/x" "" None))) H eq_refl).
Defined.
